(** * podcast-scraper: a shallow embedding of the ingestion and export core

    Python [str] values are modelled as [list ascii] (code points 0..127);
    Python [int] values as [Z].  The SQLite table and the audio cache
    directory are modelled as stdpp finite maps. *)

From Stdlib Require Import Ascii ZArith Lia Sorted.
From stdpp Require Import base list strings gmap.

Open Scope Z_scope.

(** ** Python string primitives *)

Abbreviation pystr := (list ascii).

(** A Rocq string literal as a Python string. *)
Definition lit (s : string) : pystr := String.list_ascii_of_string s.

Definition LF : ascii := ascii_of_nat 10.
Definition CR : ascii := ascii_of_nat 13.
Definition TAB : ascii := ascii_of_nat 9.
Definition SP : ascii := ascii_of_nat 32.

(** [str.isspace] on one ASCII code point: \t \n \v \f \r, the separators
    \x1c..\x1f, and the space. *)
Definition py_isspace (c : ascii) : bool :=
  let n := nat_of_ascii c in
  ((9 <=? n)%nat && (n <=? 13)%nat) || ((28 <=? n)%nat && (n <=? 32)%nat).

Fixpoint py_lstrip (l : pystr) : pystr :=
  match l with
  | [] => []
  | c :: r => if py_isspace c then py_lstrip r else l
  end.

Definition py_rstrip (l : pystr) : pystr := rev (py_lstrip (rev l)).

(** [s.strip()] with no argument. *)
Definition py_strip (l : pystr) : pystr := py_rstrip (py_lstrip l).

(** Python's normalisation of a slice bound [i] for a sequence of length [n]. *)
Definition py_index (n : nat) (i : Z) : nat :=
  if i <? 0 then Z.to_nat (Z.max 0 (Z.of_nat n + i))
  else Z.to_nat (Z.min i (Z.of_nat n)).

(** [l[i:j]] (step 1). *)
Definition py_slice (l : pystr) (i j : Z) : pystr :=
  let a := py_index (length l) i in
  let b := py_index (length l) j in
  take (b - a) (drop a l).

Definition py_len (l : pystr) : Z := Z.of_nat (length l).

(** ** export.py: [_normalize_excerpt_text] *)

(** [s.replace("\r\n", "\n")]: left-to-right, non-overlapping. *)
Fixpoint replace_crlf (l : pystr) : pystr :=
  match l with
  | [] => []
  | c :: r =>
      match r with
      | d :: r' =>
          if (Ascii.eqb c CR && Ascii.eqb d LF)%bool
          then LF :: replace_crlf r'
          else c :: replace_crlf r
      | [] => [c]
      end
  end.

(** [s.replace("\r", "\n")]. *)
Definition replace_cr (l : pystr) : pystr :=
  map (fun c => if Ascii.eqb c CR then LF else c) l.

Definition is_blank (c : ascii) : bool := (Ascii.eqb c SP || Ascii.eqb c TAB)%bool.

(** [re.sub(r"[ \t]+", " ", s)]: every maximal run of spaces and tabs
    becomes one space.  [in_run] records that the previous input character
    belonged to such a run, whose replacement was already emitted. *)
Fixpoint sub_blanks (in_run : bool) (l : pystr) : pystr :=
  match l with
  | [] => []
  | c :: r =>
      if is_blank c
      then (if in_run then sub_blanks true r else SP :: sub_blanks true r)
      else c :: sub_blanks false r
  end.

(** [re.sub(r"\n{3,}", "\n\n", s)]: a maximal run of [n] newlines becomes
    [n] newlines when [n < 3] and exactly two otherwise, i.e. the first two
    newlines of every run are kept.  [run] counts the newlines of the
    current run seen so far. *)
Fixpoint sub_newlines (run : nat) (l : pystr) : pystr :=
  match l with
  | [] => []
  | c :: r =>
      if Ascii.eqb c LF
      then (if (run <? 2)%nat then LF :: sub_newlines (S run) r
            else sub_newlines (S run) r)
      else c :: sub_newlines 0 r
  end.

Definition _normalize_excerpt_text (text : pystr) : pystr :=
  let t := replace_cr (replace_crlf text) in
  let t := sub_blanks false t in
  let t := sub_newlines 0 t in
  py_strip t.

(** ** export.py: [_excerpt_transcript] *)

Definition excerpt_sep : pystr := [LF; "."; "."; "."; LF]%char.

Definition _excerpt_transcript (text : pystr) (max_chars : Z) : pystr :=
  let t := _normalize_excerpt_text text in
  if max_chars <=? 0 then []
  else if py_len t <=? max_chars then t
  else
    let sep := excerpt_sep in
    let overhead := py_len sep * 2 in
    let budget := max_chars - overhead in
    if budget <=? 0 then py_strip (py_slice t 0 max_chars)
    else
      let part := Z.max 200 (budget / 3) in
      let head := py_slice t 0 part in
      let mid_start := Z.max 0 (py_len t / 2 - part / 2) in
      let mid := py_slice t mid_start (mid_start + part) in
      let tail := py_slice t (- part) (py_len t) in
      py_strip (py_strip head ++ sep ++ py_strip mid ++ sep ++ py_strip tail).

(** ** Checkers for the output of the normalisation passes *)

(** [blanks_ok b l]: every space/tab of [l] is a space and none follows
    another one ([b]: the character before [l] was one). *)
Fixpoint blanks_ok (in_run : bool) (l : pystr) : bool :=
  match l with
  | [] => true
  | c :: r =>
      if is_blank c then (negb in_run && Ascii.eqb c SP && blanks_ok true r)%bool
      else blanks_ok false r
  end.

(** [newlines_ok k l]: no run of three newlines, [k] newlines preceding. *)
Fixpoint newlines_ok (run : nat) (l : pystr) : bool :=
  match l with
  | [] => true
  | c :: r =>
      if Ascii.eqb c LF then ((run <? 2)%nat && newlines_ok (S run) r)%bool
      else newlines_ok 0 r
  end.

Definition no_cr (l : pystr) : Prop := Forall (fun c => c <> CR) l.

(** ** export.py: [_format_date] *)

(** Python truthiness of an optional string: [None] and [""] are false. *)
Definition truthy (o : option pystr) : bool :=
  match o with Some (_ :: _) => true | _ => false end.

Definition char_at_is (s : pystr) (i : nat) (c : ascii) : bool :=
  match s !! i with Some d => Ascii.eqb d c | None => false end.

Section FormatDate.

(** [parsedate_to_datetime(s).strftime("%Y-%m-%d")] from [email.utils]:
    [None] when it raises.  The RFC 2822 parser is library code. *)
Variable rfc2822_ymd : pystr -> option pystr.

Definition _format_date (published_at : option pystr) : pystr :=
  match published_at with
  | Some ((_ :: _) as s) =>
      if ((10 <=? length s)%nat && char_at_is s 4 "-")%bool
      then py_slice s 0 10
      else match rfc2822_ymd s with
           | Some d => d
           | None => py_slice s 0 20
           end
  | _ => lit "unknown date"
  end.

(** The date rule as the spec words it, to be compared with
    [_format_date]: "unknown date" only when [publishedAt] is absent. *)
Definition format_date_spec (published_at : option pystr) : pystr :=
  match published_at with
  | None => lit "unknown date"
  | Some s =>
      if ((10 <=? length s)%nat && char_at_is s 4 "-")%bool
      then py_slice s 0 10
      else match rfc2822_ymd s with
           | Some d => d
           | None => py_slice s 0 20
           end
  end.

End FormatDate.

(** ** feed.py: [_get_episode_id]; transcribe.py: the audio cache *)

(** A raw feedparser entry: the fields [_get_episode_id] reads.  [None]
    when the key is missing. *)
Record feed_entry := {
  entry_id : option pystr;
  entry_guid : option pystr;
  entry_title : option pystr;
}.

(** [a or b] on optional strings. *)
Definition py_or (a b : option pystr) : option pystr :=
  if truthy a then a else b.

(** [dict.get(key, default)]. *)
Definition get_default (o : option pystr) (d : pystr) : pystr :=
  match o with Some s => s | None => d end.

(** [str.lower()] on ASCII. *)
Definition ascii_lower (c : ascii) : ascii :=
  let n := nat_of_ascii c in
  if ((65 <=? n)%nat && (n <=? 90)%nat)%bool then ascii_of_nat (n + 32) else c.

Definition py_lower (s : pystr) : pystr := map ascii_lower s.

(** [s.split("?")[0]]. *)
Fixpoint before_qmark (s : pystr) : pystr :=
  match s with
  | [] => []
  | c :: r => if Ascii.eqb c "?" then [] else c :: before_qmark r
  end.

Definition py_endswith (s suffix : pystr) : bool :=
  ((length suffix <=? length s)%nat &&
   bool_decide (drop (length s - length suffix) s = suffix))%bool.

(** [os.path.join(a, b)] (posixpath). *)
Definition os_path_join (a b : pystr) : pystr :=
  match b with
  | "/"%char :: _ => b
  | _ =>
      match a with
      | [] => b
      | _ => if py_endswith a (lit "/") then a ++ b else a ++ lit "/" ++ b
      end
  end.

Definition audio_ext_candidates : list pystr :=
  [lit ".mp3"; lit ".m4a"; lit ".ogg"; lit ".wav"; lit ".mp4"].

(** The [for candidate in ...: if ...: ext = candidate; break] loop. *)
Fixpoint pick_ext (u : pystr) (cands : list pystr) (dflt : pystr) : pystr :=
  match cands with
  | [] => dflt
  | c :: rest => if py_endswith u c then c else pick_ext u rest dflt
  end.

(** The byte contents of a file. *)
Abbreviation bytes := (list Byte.byte).

(** What the HTTP collaborator does for one [requests.get(..., stream=True)]:
    the request raises; [raise_for_status] raises; or a body arrives as
    chunks and [iter_content] then either ends or raises. *)
Inductive stream_end := StreamDone | StreamBroken.

Inductive http_response :=
  | ConnectFailure
  | HttpErrorStatus
  | Body (chunks : list bytes) (e : stream_end).

Inductive download_result := Downloaded (path : pystr) | DownloadRaised.

Section Hashing.

(** [hashlib.sha256(s.encode()).hexdigest()]: library code, kept abstract. *)
Variable sha256_hexdigest : pystr -> pystr.

Definition _get_episode_id (entry : feed_entry) (feed_url : pystr) : pystr :=
  let guid := py_or (entry_id entry) (entry_guid entry) in
  match guid with
  | Some ((_ :: _) as g) => g
  | _ =>
      let title := get_default (entry_title entry) (lit "unknown") in
      py_slice (sha256_hexdigest (feed_url ++ lit ":" ++ title)) 0 32
  end.

Definition _episode_cache_path (audio_url cache_dir : pystr) : pystr :=
  let url_hash := py_slice (sha256_hexdigest audio_url) 0 16 in
  let ext := pick_ext (before_qmark (py_lower audio_url)) audio_ext_candidates (lit ".mp3") in
  os_path_join cache_dir (url_hash ++ ext).

(** [download_audio] over the files of the cache: [fs] maps paths to
    contents ([os.makedirs] is not modelled).  [open(path, "wb")] creates
    the file empty; the [with] block closes it, flushing what was written,
    also when [iter_content] raises. *)
Definition download_audio (fs : gmap pystr bytes) (audio_url cache_dir : pystr)
    (resp : http_response) : gmap pystr bytes * download_result :=
  let local_path := _episode_cache_path audio_url cache_dir in
  if bool_decide (is_Some (fs !! local_path)) then (fs, Downloaded local_path)
  else
    match resp with
    | ConnectFailure | HttpErrorStatus => (fs, DownloadRaised)
    | Body chunks e =>
        let fs' := <[local_path := concat chunks]> fs in
        match e with
        | StreamDone => (fs', Downloaded local_path)
        | StreamBroken => (fs', DownloadRaised)
        end
    end.

End Hashing.

(** ** db.py: the [episodes] table and [store_episode] *)

(** [str.split()] with no argument: the maximal runs of non-whitespace.
    [cur] holds the current word, reversed. *)
Fixpoint py_split_aux (cur : pystr) (l : pystr) : list pystr :=
  match l with
  | [] => match cur with [] => [] | _ => [rev cur] end
  | c :: r =>
      if py_isspace c
      then match cur with
           | [] => py_split_aux [] r
           | _ => rev cur :: py_split_aux [] r
           end
      else py_split_aux (c :: cur) r
  end.

Definition py_split (l : pystr) : list pystr := py_split_aux [] l.

(** One row of the [episodes] table; [None] is SQL NULL. *)
Record episode_row := {
  ep_id : pystr;
  ep_feed_name : pystr;
  ep_feed_url : pystr;
  ep_title : pystr;
  ep_published_at : option pystr;
  ep_audio_url : option pystr;
  ep_audio_path : option pystr;
  ep_transcript : option pystr;
  ep_transcript_source : option pystr;
  ep_scraped_at : pystr;
  ep_word_count : option Z;
}.

(** The table, keyed by its primary key [id]. *)
Abbreviation episode_table := (gmap pystr episode_row).

(** [store_episode]: [INSERT ... ON CONFLICT(id) DO UPDATE SET transcript,
    transcript_source, audio_path, scraped_at, word_count].  [now] is
    [datetime.now(timezone.utc).isoformat()]. *)
Definition store_episode (conn : episode_table) (now : pystr)
    (episode_id feed_name feed_url title : pystr)
    (published_at audio_url audio_path : option pystr)
    (transcript : pystr) (transcript_source : option pystr) : episode_table :=
  let word_count :=
    if truthy (Some transcript) then Z.of_nat (length (py_split transcript)) else 0 in
  match conn !! episode_id with
  | None =>
      <[episode_id := {|
          ep_id := episode_id; ep_feed_name := feed_name; ep_feed_url := feed_url;
          ep_title := title; ep_published_at := published_at; ep_audio_url := audio_url;
          ep_audio_path := audio_path; ep_transcript := Some transcript;
          ep_transcript_source := transcript_source; ep_scraped_at := now;
          ep_word_count := Some word_count |}]> conn
  | Some old =>
      <[episode_id := {|
          ep_id := ep_id old; ep_feed_name := ep_feed_name old;
          ep_feed_url := ep_feed_url old; ep_title := ep_title old;
          ep_published_at := ep_published_at old; ep_audio_url := ep_audio_url old;
          ep_audio_path := audio_path; ep_transcript := Some transcript;
          ep_transcript_source := transcript_source; ep_scraped_at := now;
          ep_word_count := Some word_count |}]> conn
  end.

(** The table states reachable from the empty table by [store_episode]
    calls with arbitrary arguments. *)
Inductive store_reachable : episode_table -> Prop :=
  | store_reachable_empty : store_reachable ∅
  | store_reachable_store conn now i fn fu ti pa au ap tr ts :
      store_reachable conn ->
      store_reachable (store_episode conn now i fn fu ti pa au ap tr ts).

(** ** export.py: [export_transcripts_json] *)

Record json_episode := {
  episodeId : pystr;
  feedName : pystr;
  title : pystr;
  publishedAt : option pystr;
  scrapedAt : pystr;
  wordCount : Z;
  transcriptExcerpt : pystr;
}.

Record json_payload := {
  episodeCount : Z;
  feedCount : Z;
  lookbackHours : Z;
  episodes : list json_episode;
}.

(** Reading [d[k]] on a [defaultdict(int)] inserts [k := 0] when missing. *)
Definition dd_get (d : gmap pystr Z) (k : pystr) : Z * gmap pystr Z :=
  match d !! k with
  | Some v => (v, d)
  | None => (0, <[k := 0]> d)
  end.

Definition json_item (ep : episode_row) (transcript feed_name : pystr)
    (excerpt_chars : Z) : json_episode := {|
  episodeId := ep_id ep;
  feedName := feed_name;
  title := ep_title ep;
  publishedAt := ep_published_at ep;
  scrapedAt := ep_scraped_at ep;
  wordCount := match ep_word_count ep with Some w => w | None => 0 end;
  transcriptExcerpt := _excerpt_transcript transcript excerpt_chars;
|}.

(** The [for ep in episodes] loop, from [selected] and [per_feed_counts]. *)
Fixpoint select_loop (max_episodes_total max_episodes_per_feed excerpt_chars : Z)
    (eps : list episode_row) (selected : list json_episode)
    (per_feed_counts : gmap pystr Z) : list json_episode * gmap pystr Z :=
  match eps with
  | [] => (selected, per_feed_counts)
  | ep :: rest =>
      if max_episodes_total <=? Z.of_nat (length selected) then (selected, per_feed_counts)
      else
        let transcript := get_default (ep_transcript ep) [] in
        if bool_decide (py_strip transcript = []) then
          select_loop max_episodes_total max_episodes_per_feed excerpt_chars
            rest selected per_feed_counts
        else
          let feed_name := ep_feed_name ep in
          let append := fun counts =>
            let '(v, counts) := dd_get counts feed_name in
            select_loop max_episodes_total max_episodes_per_feed excerpt_chars rest
              (selected ++ [json_item ep transcript feed_name excerpt_chars])
              (<[feed_name := v + 1]> counts) in
          if 0 <? max_episodes_per_feed then
            let '(v, counts) := dd_get per_feed_counts feed_name in
            if max_episodes_per_feed <=? v then
              select_loop max_episodes_total max_episodes_per_feed excerpt_chars
                rest selected counts
            else append counts
          else append per_feed_counts
  end.

(** [export_transcripts_json] after the database fetch: [episodes] is what
    [db.fetch_recent] / [db.fetch_by_group] returned. *)
Definition export_transcripts_json (eps : list episode_row) (lookback_hours : Z)
    (max_episodes_total max_episodes_per_feed excerpt_chars : Z) : json_payload :=
  let '(selected, per_feed_counts) :=
    select_loop max_episodes_total max_episodes_per_feed excerpt_chars eps [] ∅ in
  {| episodeCount := Z.of_nat (length selected);
     feedCount := Z.of_nat (length (filter (fun kv : pystr * Z => 0 < kv.2)
                                       (map_to_list per_feed_counts)));
     lookbackHours := lookback_hours;
     episodes := selected |}.

(** ** cli.py: the per-episode body of [cmd_scrape] and [cmd_adhoc] *)

(** The [Episode] dataclass of feed.py. *)
Record Episode := {
  fe_id : pystr;
  fe_feed_name : pystr;
  fe_feed_url : pystr;
  fe_title : pystr;
  fe_published_at : option pystr;
  fe_audio_url : option pystr;
  fe_transcript_url : option pystr;
}.

(** Strategy 2: [download_audio] then [transcribe_audio]; any exception of
    either is [AudioRaised]. *)
Inductive audio_outcome :=
  | AudioRaised
  | AudioTranscribed (audio_path transcript : pystr).

Inductive episode_outcome := Skipped | Failed | NoTranscript | Stored.

(** One iteration of [for ep in episodes]: [fetched] is what
    [fetch_transcript(ep.transcript_url)] returns, [audio] what strategy 2
    does; either is only used when the code calls it. *)
Definition scrape_episode (conn : episode_table) (now : pystr) (ep : Episode)
    (fetched : option pystr) (audio : audio_outcome) : episode_table * episode_outcome :=
  if bool_decide (is_Some (conn !! fe_id ep)) then (conn, Skipped)
  else
    let '(transcript, transcript_source) :=
      if truthy (fe_transcript_url ep)
      then (fetched, if truthy fetched then Some (lit "podcast2.0") else None)
      else (None, None) in
    let finish := fun transcript transcript_source audio_path =>
      if negb (truthy transcript) then (conn, NoTranscript)
      else (store_episode conn now (fe_id ep) (fe_feed_name ep) (fe_feed_url ep)
              (fe_title ep) (fe_published_at ep) (fe_audio_url ep) audio_path
              (get_default transcript []) transcript_source, Stored) in
    if (negb (truthy transcript) && truthy (fe_audio_url ep))%bool then
      match audio with
      | AudioRaised => (conn, Failed)
      | AudioTranscribed audio_path tr =>
          finish (Some tr) (Some (lit "whisper")) (Some audio_path)
      end
    else finish transcript transcript_source None.

(** The table states the scrape pipeline can produce from an empty table. *)
Inductive pipeline_reachable : episode_table -> Prop :=
  | pipeline_reachable_empty : pipeline_reachable ∅
  | pipeline_reachable_step conn now ep fetched audio :
      pipeline_reachable conn ->
      pipeline_reachable (scrape_episode conn now ep fetched audio).1.

(** ** feed.py: entry helpers and [parse_feed] *)

(** [haystack.startswith(prefix)]. *)
Definition py_startswith (s p : pystr) : bool := bool_decide (take (length p) s = p).

(** [needle in haystack] on strings. *)
Fixpoint py_in (needle hay : pystr) : bool :=
  (py_startswith hay needle ||
   match hay with [] => false | _ :: r => py_in needle r end)%bool.

(** [s.endswith((e1, e2, ...))]. *)
Definition py_endswith_any (s : pystr) (suffixes : list pystr) : bool :=
  existsb (py_endswith s) suffixes.

Definition feed_audio_exts : list pystr := [lit ".mp3"; lit ".m4a"; lit ".ogg"; lit ".wav"].

(** An element of [entry.enclosures] / [entry.links]; [None]: key missing. *)
Record enclosure := {
  enc_href : option pystr;
  enc_url : option pystr;
  enc_type : option pystr;
}.

Record entry_link := {
  link_href : option pystr;
  link_type : option pystr;
  link_rel : option pystr;
}.

(** The enclosure loop of [_get_audio_url]. *)
Fixpoint audio_from_enclosures (encs : list enclosure) : option pystr :=
  match encs with
  | [] => None
  | enc :: rest =>
      let href := py_or (enc_href enc) (enc_url enc) in
      let ty := get_default (enc_type enc) [] in
      if (truthy href &&
          (py_in (lit "audio") ty ||
           py_endswith_any (py_lower (get_default href [])) feed_audio_exts))%bool
      then href
      else audio_from_enclosures rest
  end.

(** The link loop of [_get_audio_url]. *)
Fixpoint audio_from_links (links : list entry_link) : option pystr :=
  match links with
  | [] => None
  | link :: rest =>
      let ty := get_default (link_type link) [] in
      let href := get_default (link_href link) [] in
      if (py_in (lit "audio") ty || py_endswith_any (py_lower href) feed_audio_exts)%bool
      then Some href
      else audio_from_links rest
  end.

Fixpoint _get_transcript_url_links (links : list entry_link) : option pystr :=
  match links with
  | [] => None
  | link :: rest =>
      if bool_decide (link_rel link = Some (lit "transcript")) then link_href link
      else _get_transcript_url_links rest
  end.

Section Feed.

Variable sha256_hexdigest : pystr -> pystr.
(** [time.struct_time] and [time.mktime] (library code). *)
Variable struct_time : Type.
Variable mktime : struct_time -> Z.

(** A feedparser entry: the fields feed.py reads. *)
Record raw_entry := {
  re_base : feed_entry;
  re_published_parsed : option struct_time;
  re_updated_parsed : option struct_time;
  re_published : option pystr;
  re_updated : option pystr;
  re_enclosures : list enclosure;
  re_links : list entry_link;
}.

Definition _get_entry_timestamp (entry : raw_entry) : Z :=
  match re_published_parsed entry with
  | Some t => mktime t
  | None => match re_updated_parsed entry with Some t => mktime t | None => 0 end
  end.

Definition _get_entry_date (entry : raw_entry) : option pystr :=
  if truthy (re_published entry) then re_published entry
  else if truthy (re_updated entry) then re_updated entry
  else None.

Definition _get_audio_url (entry : raw_entry) : option pystr :=
  match audio_from_enclosures (re_enclosures entry) with
  | Some href => Some href
  | None => audio_from_links (re_links entry)
  end.

Definition _get_transcript_url (entry : raw_entry) : option pystr :=
  _get_transcript_url_links (re_links entry).

(** [sorted(entries, key=_get_entry_timestamp, reverse=True)]: a stable sort
    on decreasing timestamps (entries with equal timestamps keep their
    order), written as insertion of each entry after every entry whose key
    is not smaller. *)
Fixpoint insert_newest (x : raw_entry) (l : list raw_entry) : list raw_entry :=
  match l with
  | [] => [x]
  | y :: r =>
      if _get_entry_timestamp y <? _get_entry_timestamp x then x :: y :: r
      else y :: insert_newest x r
  end.

Definition sort_newest_first (entries : list raw_entry) : list raw_entry :=
  fold_left (fun acc x => insert_newest x acc) entries [].

(** [l[:j]] on a list. *)
Definition py_prefix {A} (l : list A) (j : Z) : list A := take (py_index (length l) j) l.

Definition entry_to_episode (feed_name feed_url : pystr) (entry : raw_entry) : Episode := {|
  fe_id := _get_episode_id sha256_hexdigest (re_base entry) feed_url;
  fe_feed_name := feed_name;
  fe_feed_url := feed_url;
  fe_title := get_default (entry_title (re_base entry)) (lit "Untitled");
  fe_published_at := _get_entry_date entry;
  fe_audio_url := _get_audio_url entry;
  fe_transcript_url := _get_transcript_url entry;
|}.

(** [parse_feed] after [feedparser.parse]: [bozo] and [entries] are the
    parser's result; [None] is the [ValueError]. *)
Definition parse_feed (feed_name feed_url : pystr) (bozo : bool)
    (entries : list raw_entry) (max_episodes : Z) : option (list Episode) :=
  if (bozo && bool_decide (entries = []))%bool then None
  else
    let sorted_entries := sort_newest_first entries in
    Some (map (entry_to_episode feed_name feed_url) (py_prefix sorted_entries max_episodes)).

End Feed.

Arguments re_base {_} _.
Arguments re_published_parsed {_} _.
Arguments re_updated_parsed {_} _.
Arguments re_published {_} _.
Arguments re_updated {_} _.
Arguments re_enclosures {_} _.
Arguments re_links {_} _.

(** ** db.py: [episode_exists] *)

Definition episode_exists (conn : episode_table) (episode_id : pystr) : bool :=
  bool_decide (is_Some (conn !! episode_id)).

(** ** export.py: [export_transcripts] *)

Definition DELIMITER : pystr := lit "---".

(** [sep.join(parts)]. *)
Fixpoint py_join (sep : pystr) (parts : list pystr) : pystr :=
  match parts with
  | [] => []
  | [p] => p
  | p :: rest => p ++ sep ++ py_join sep rest
  end.

Record text_export := {
  te_file : option pystr;
  te_episode_count : Z;
  te_total_words : Z;
}.

Section TextExport.

Variable rfc2822_ymd : pystr -> option pystr.

Definition export_header (ep : episode_row) : pystr :=
  lit "[" ++ ep_feed_name ep ++ lit "]: " ++ ep_title ep ++ lit " (" ++
  _format_date rfc2822_ymd (ep_published_at ep) ++ lit ")".

(** The [for ep in episodes] loop: the blocks and [total_words]; [None] when
    [total_words += ep.get("word_count", 0)] meets a NULL word count
    ([TypeError]). *)
Fixpoint export_blocks (eps : list episode_row) : option (list pystr * Z) :=
  match eps with
  | [] => Some ([], 0)
  | ep :: rest =>
      if negb (truthy (ep_transcript ep)) then export_blocks rest
      else
        match ep_word_count ep, export_blocks rest with
        | Some w, Some (blocks, total) =>
            Some ((export_header ep ++ [LF] ++ get_default (ep_transcript ep) []) :: blocks,
                  w + total)
        | _, _ => None
        end
  end.

(** [export_transcripts] after the database fetch; [te_file] is what is
    written to [output_path] ([None]: nothing written). *)
Definition export_transcripts (eps : list episode_row) : option text_export :=
  match eps with
  | [] => Some {| te_file := None; te_episode_count := 0; te_total_words := 0 |}
  | _ =>
      match export_blocks eps with
      | None => None
      | Some (blocks, total_words) =>
          let content := py_join ([LF] ++ DELIMITER ++ [LF]) blocks in
          Some {| te_file := Some (content ++ [LF]);
                  te_episode_count := Z.of_nat (length blocks);
                  te_total_words := total_words |}
      end
  end.

End TextExport.

(** ** cli.py: the [for ep in episodes] loop of [cmd_scrape] / [cmd_adhoc] *)

(** One entry per episode: the time [store_episode] would read, the
    episode, and what its two strategies would give.  Returns the table
    and the [total_new] / [total_skipped] increments. *)
Fixpoint scrape_loop (conn : episode_table)
    (steps : list (pystr * Episode * option pystr * audio_outcome)) : episode_table * Z * Z :=
  match steps with
  | [] => (conn, 0, 0)
  | (now, ep, fetched, audio) :: rest =>
      let '(conn', outcome) := scrape_episode conn now ep fetched audio in
      let '(conn'', total_new, total_skipped) := scrape_loop conn' rest in
      (conn'',
       (match outcome with Stored => 1 | _ => 0 end) + total_new,
       (match outcome with Skipped => 1 | _ => 0 end) + total_skipped)
  end.

(** ** Auxiliary predicates used by the proofs *)

Definition word_count_of (transcript : pystr) : Z :=
  if truthy (Some transcript) then Z.of_nat (length (py_split transcript)) else 0.

Definition sample_row : episode_row := {|
  ep_id := lit "guid-1"; ep_feed_name := lit "Show"; ep_feed_url := lit "https://example.com/rss";
  ep_title := lit "Episode 1"; ep_published_at := Some (lit "2026-02-10");
  ep_audio_url := Some (lit "https://example.com/1.mp3"); ep_audio_path := None;
  ep_transcript := Some (lit "old text"); ep_transcript_source := Some (lit "podcast2.0");
  ep_scraped_at := lit "2026-02-10T09:00:00"; ep_word_count := Some 2 |}.

Definition word_count_consistent (r : episode_row) : Prop :=
  ep_word_count r =
    Some (match ep_transcript r with Some t => Z.of_nat (length (py_split t)) | None => 0 end).

Definition source_iff_transcript (r : episode_row) : Prop :=
  (is_Some (ep_transcript_source r) <-> truthy (ep_transcript r) = true) /\
  truthy (ep_transcript r) = true.

Definition sample_episode : Episode := {|
  fe_id := lit "guid-1"; fe_feed_name := lit "Show"; fe_feed_url := lit "https://example.com/rss";
  fe_title := lit "Episode 1"; fe_published_at := None;
  fe_audio_url := Some (lit "https://example.com/1.mp3");
  fe_transcript_url := Some (lit "https://example.com/1.txt") |}.

(** The number of selected entries of feed [f]. *)
Definition feed_total (f : pystr) (sel : list json_episode) : nat :=
  length (filter (fun j => feedName j = f) sel).

(** The running per-feed counter agrees with the selection. *)
Definition counts_inv (sel : list json_episode) (counts : gmap pystr Z) : Prop :=
  forall f, default 0 (counts !! f) = Z.of_nat (feed_total f sel).

Definition blank_transcript (ep : episode_row) : Prop :=
  py_strip (get_default (ep_transcript ep) []) = [].

(** A feed entry with a guid (also its title) and a publication time. *)
Definition sample_raw_entry (i : pystr) (t : Z) : raw_entry Z := {|
  re_base := {| entry_id := Some i; entry_guid := None; entry_title := Some i |};
  re_published_parsed := Some t; re_updated_parsed := None;
  re_published := Some (lit "Mon, 10 Feb 2026 08:00:00 +0000"); re_updated := None;
  re_enclosures := []; re_links := [] |}.

(** An entry whose only enclosure is an MP3 file, with [links] as given. *)
Definition sample_audio_entry (links : list entry_link) : raw_entry Z := {|
  re_base := {| entry_id := Some (lit "guid-1"); entry_guid := None; entry_title := None |};
  re_published_parsed := None; re_updated_parsed := None;
  re_published := None; re_updated := None;
  re_enclosures := [{| enc_href := Some (lit "https://example.com/1.mp3"); enc_url := None;
                       enc_type := None |}];
  re_links := links |}.

(** A link declared as audio but without an [href]. *)
Definition hrefless_audio_link : entry_link := {|
  link_href := None; link_type := Some (lit "audio/mpeg"); link_rel := Some (lit "enclosure") |}.

(** The string does not start (end) with whitespace. *)
Definition starts_nonspace (l : pystr) : Prop :=
  match l with [] => True | c :: _ => py_isspace c = false end.

Definition ends_nonspace (l : pystr) : Prop := starts_nonspace (rev l).

(** The fetched rows the text export turns into blocks, and their token total. *)
Definition transcript_rows (eps : list episode_row) : list episode_row :=
  filter (fun ep => truthy (ep_transcript ep) = true) eps.

Definition token_total (eps : list episode_row) : Z :=
  fold_right Z.add 0
    (map (fun ep => Z.of_nat (length (py_split (get_default (ep_transcript ep) [])))) eps).

Definition row_of_feed (i fn tr : pystr) : episode_row := {|
  ep_id := i; ep_feed_name := fn; ep_feed_url := lit "https://example.com/rss";
  ep_title := i; ep_published_at := None; ep_audio_url := None; ep_audio_path := None;
  ep_transcript := Some tr; ep_transcript_source := Some (lit "podcast2.0");
  ep_scraped_at := lit "2026-02-11T09:00:00"; ep_word_count := Some 1 |}.

(** * Proofs *)

(** ** Sanity checks on small inputs *)

Example normalize_ex1 :
  _normalize_excerpt_text
    ([SP; "a"; TAB; SP; "b"; CR; LF; LF; LF; LF; "c"; SP]%char)
  = ["a"; SP; "b"; LF; LF; "c"]%char.
Proof. reflexivity. Qed.

Example excerpt_ex1 :
  length (_excerpt_transcript (repeat "a"%char 1000) 300) = 610%nat.
Proof. vm_compute. reflexivity. Qed.

(** ** Facts about the normalisation passes *)

Module Normalize.

Lemma LF_not_blank : is_blank LF = false.
Proof. reflexivity. Qed.

Lemma sub_blanks_id b l : blanks_ok b l = true -> sub_blanks b l = l.
Proof.
  revert b; induction l as [|c r IH]; intros b H; simpl in *; [done|].
  destruct (is_blank c) eqn:Hc.
  - destruct b; simpl in H; [discriminate|].
    apply andb_prop in H as [H1 H2].
    apply Ascii.eqb_eq in H1; subst c. f_equal. by apply IH.
  - f_equal. by apply IH.
Qed.

Lemma sub_blanks_ok b l : blanks_ok b (sub_blanks b l) = true.
Proof.
  revert b; induction l as [|c r IH]; intros b; simpl; [done|].
  destruct (is_blank c) eqn:Hc.
  - destruct b; [apply IH|]. simpl. apply IH.
  - simpl. rewrite Hc. apply IH.
Qed.

Lemma blanks_ok_true_false l : blanks_ok true l = true -> blanks_ok false l = true.
Proof.
  destruct l as [|c r]; simpl; [done|].
  destruct (is_blank c); simpl; [discriminate|done].
Qed.

Lemma blanks_ok_suffix b p l : blanks_ok b (p ++ l) = true -> blanks_ok false l = true.
Proof.
  revert b; induction p as [|c r IH]; intros b H; simpl in *.
  - destruct b; [by apply blanks_ok_true_false|done].
  - destruct (is_blank c).
    + apply andb_prop in H as [_ H]. by apply (IH true).
    + by apply (IH false).
Qed.

Lemma blanks_ok_prefix b l s : blanks_ok b (l ++ s) = true -> blanks_ok b l = true.
Proof.
  revert b; induction l as [|c r IH]; intros b H; simpl in *; [done|].
  destruct (is_blank c).
  - apply andb_prop in H as [H1 H2]. rewrite H1. simpl. by apply IH.
  - by apply IH.
Qed.

Lemma sub_newlines_id k l : newlines_ok k l = true -> sub_newlines k l = l.
Proof.
  revert k; induction l as [|c r IH]; intros k H; simpl in *; [done|].
  destruct (Ascii.eqb c LF) eqn:Hc.
  - apply andb_prop in H as [H1 H2]. rewrite H1.
    apply Ascii.eqb_eq in Hc; subst c. f_equal. by apply IH.
  - f_equal. by apply IH.
Qed.

Lemma newlines_ok_mono k k' l :
  (k <= k')%nat -> newlines_ok k' l = true -> newlines_ok k l = true.
Proof.
  revert k k'; induction l as [|c r IH]; intros k k' Hle H; simpl in *; [done|].
  destruct (Ascii.eqb c LF); [|done].
  apply andb_prop in H as [H1 H2]. apply Nat.ltb_lt in H1.
  apply andb_true_intro; split.
  - apply Nat.ltb_lt. lia.
  - apply (IH (S k) (S k')); [lia|done].
Qed.

Lemma sub_newlines_ok k l : newlines_ok k (sub_newlines k l) = true.
Proof.
  revert k; induction l as [|c r IH]; intros k; simpl; [done|].
  destruct (Ascii.eqb c LF) eqn:Hc.
  - destruct (k <? 2)%nat eqn:Hk; simpl.
    + rewrite Hk. apply IH.
    + apply (newlines_ok_mono k (S k)); [lia|apply IH].
  - simpl. rewrite Hc. apply IH.
Qed.

Lemma newlines_ok_suffix k p l : newlines_ok k (p ++ l) = true -> newlines_ok 0 l = true.
Proof.
  revert k; induction p as [|c r IH]; intros k H; simpl in *.
  - apply (newlines_ok_mono 0 k); [lia|done].
  - destruct (Ascii.eqb c LF).
    + apply andb_prop in H as [_ H]. by apply (IH (S k)).
    + by apply (IH 0%nat).
Qed.

Lemma newlines_ok_prefix k l s : newlines_ok k (l ++ s) = true -> newlines_ok k l = true.
Proof.
  revert k; induction l as [|c r IH]; intros k H; simpl in *; [done|].
  destruct (Ascii.eqb c LF).
  - apply andb_prop in H as [H1 H2]. rewrite H1. simpl. by apply IH.
  - by apply IH.
Qed.

Lemma sub_newlines_blanks k b l :
  (k = 0%nat \/ b = false) ->
  blanks_ok b l = true -> blanks_ok b (sub_newlines k l) = true.
Proof.
  revert k b; induction l as [|c r IH]; intros k b Hkb H; simpl in *; [done|].
  destruct (Ascii.eqb c LF) eqn:Hc.
  - apply Ascii.eqb_eq in Hc; subst c. rewrite ?LF_not_blank in H.
    destruct (k <? 2)%nat eqn:Hk.
    + simpl. rewrite ?LF_not_blank. apply IH; [by right|done].
    + assert (b = false) as -> by (destruct Hkb as [->|]; [discriminate|done]).
      apply IH; [by right|done].
  - simpl. destruct (is_blank c).
    + apply andb_prop in H as [H1 H2]. rewrite H1. simpl. apply IH; [by left|done].
    + apply IH; [by left|done].
Qed.

Lemma no_cr_sub_blanks b l : no_cr l -> no_cr (sub_blanks b l).
Proof.
  unfold no_cr. revert b; induction l as [|c r IH]; intros b H; simpl; [done|].
  inversion H; subst.
  destruct (is_blank c); [destruct b|]; repeat constructor; auto; discriminate.
Qed.

Lemma no_cr_sub_newlines k l : no_cr l -> no_cr (sub_newlines k l).
Proof.
  unfold no_cr. revert k; induction l as [|c r IH]; intros k H; simpl; [done|].
  inversion H; subst.
  destruct (Ascii.eqb c LF); [destruct (k <? 2)%nat|]; repeat constructor; auto; discriminate.
Qed.

Lemma no_cr_replace_cr l : no_cr (replace_cr l).
Proof.
  unfold no_cr, replace_cr. apply Forall_forall. intros x Hx.
  apply list_elem_of_In, in_map_iff in Hx as [c [<- _]].
  destruct (Ascii.eqb c CR) eqn:Hc; [discriminate|].
  intros ->. by rewrite Ascii.eqb_refl in Hc.
Qed.

Lemma replace_crlf_id l : no_cr l -> replace_crlf l = l.
Proof.
  unfold no_cr. induction l as [|c r IH]; intros H; simpl; [done|].
  inversion H; subst.
  assert (Ascii.eqb c CR = false) as Hc by (apply Ascii.eqb_neq; done).
  destruct r as [|d r']; [done|]. rewrite Hc. simpl. f_equal. by apply IH.
Qed.

Lemma replace_cr_id l : no_cr l -> replace_cr l = l.
Proof.
  unfold no_cr, replace_cr. induction l as [|c r IH]; intros H; simpl; [done|].
  inversion H; subst.
  assert (Ascii.eqb c CR = false) as -> by (apply Ascii.eqb_neq; done).
  f_equal. by apply IH.
Qed.

(** Stripping keeps an infix of its argument. *)
Lemma py_lstrip_suffix l : exists p, l = p ++ py_lstrip l.
Proof.
  induction l as [|c r [p Hp]]; simpl; [by exists []|].
  destruct (py_isspace c); [exists (c :: p); simpl; by f_equal|by exists []].
Qed.

Lemma py_rstrip_prefix l : exists s, l = py_rstrip l ++ s.
Proof.
  destruct (py_lstrip_suffix (rev l)) as [p Hp].
  exists (rev p). unfold py_rstrip.
  rewrite <- rev_app_distr, <- Hp. by rewrite rev_involutive.
Qed.

Lemma py_strip_infix l : exists p s, l = p ++ py_strip l ++ s.
Proof.
  destruct (py_lstrip_suffix l) as [p Hp].
  destruct (py_rstrip_prefix (py_lstrip l)) as [s Hs].
  exists p, s. unfold py_strip. by rewrite <- Hs.
Qed.

Lemma py_lstrip_idem l : py_lstrip (py_lstrip l) = py_lstrip l.
Proof.
  induction l as [|c r IH]; simpl; [done|].
  destruct (py_isspace c) eqn:Hc; [done|]. simpl. by rewrite Hc.
Qed.

Lemma py_lstrip_head l :
  py_lstrip l = [] \/ exists c r, py_lstrip l = c :: r /\ py_isspace c = false.
Proof.
  induction l as [|c r IH]; simpl; [by left|].
  destruct (py_isspace c) eqn:Hc; [done|]. right. by exists c, r.
Qed.

Lemma py_lstrip_prefix_id y s :
  (y ++ s = [] \/ exists c r, y ++ s = c :: r /\ py_isspace c = false) ->
  py_lstrip y = y.
Proof.
  destruct y as [|c y]; [done|]. simpl.
  intros [H|(c' & r & H & Hsp)]; [discriminate|].
  injection H as -> _. by rewrite Hsp.
Qed.

Lemma py_rstrip_idem l : py_rstrip (py_rstrip l) = py_rstrip l.
Proof.
  unfold py_rstrip. by rewrite rev_involutive, py_lstrip_idem.
Qed.

Lemma py_strip_idem l : py_strip (py_strip l) = py_strip l.
Proof.
  unfold py_strip at 2 3.
  destruct (py_rstrip_prefix (py_lstrip l)) as [s Hs].
  unfold py_strip.
  rewrite (py_lstrip_prefix_id (py_rstrip (py_lstrip l)) s).
  - apply py_rstrip_idem.
  - rewrite <- Hs. apply py_lstrip_head.
Qed.

Lemma normalized_props text :
  let t := _normalize_excerpt_text text in
  no_cr t /\ blanks_ok false t = true /\ newlines_ok 0 t = true.
Proof.
  unfold _normalize_excerpt_text. simpl.
  set (u := sub_newlines 0 (sub_blanks false (replace_cr (replace_crlf text)))).
  destruct (py_strip_infix u) as (p & s & Hu).
  assert (Hcr : no_cr u).
  { apply no_cr_sub_newlines, no_cr_sub_blanks, no_cr_replace_cr. }
  assert (Hb : blanks_ok false u = true).
  { apply sub_newlines_blanks; [by left|apply sub_blanks_ok]. }
  assert (Hn : newlines_ok 0 u = true) by apply sub_newlines_ok.
  rewrite Hu in Hcr, Hb, Hn.
  split; [|split].
  - unfold no_cr in *. apply Forall_app in Hcr as [_ Hcr].
    apply Forall_app in Hcr as [Hcr _]. done.
  - apply blanks_ok_suffix in Hb. by apply blanks_ok_prefix in Hb.
  - apply newlines_ok_suffix in Hn. by apply newlines_ok_prefix in Hn.
Qed.

End Normalize.

Module Excerpt.

Lemma py_strip_length l : (length (py_strip l) <= length l)%nat.
Proof.
  destruct (Normalize.py_strip_infix l) as (p & s & Hl).
  rewrite Hl at 2. rewrite !length_app. lia.
Qed.

Lemma py_slice_length_le l i j :
  0 <= i -> i <= j -> (length (py_slice l i j) <= Z.to_nat (j - i))%nat.
Proof.
  intros Hi Hij. unfold py_slice, py_index.
  rewrite length_take.
  destruct (i <? 0) eqn:E1; [lia|].
  destruct (j <? 0) eqn:E2; [lia|]. lia.
Qed.

Lemma py_slice_tail_length l p :
  0 < p -> (length (py_slice l (- p) (py_len l)) <= Z.to_nat p)%nat.
Proof.
  intros Hp. unfold py_slice, py_index, py_len.
  rewrite length_take.
  destruct (- p <? 0) eqn:E1; [|lia].
  destruct (Z.of_nat (length l) <? 0) eqn:E2; lia.
Qed.

Lemma excerpt_sep_length : py_len excerpt_sep = 5.
Proof. reflexivity. Qed.

End Excerpt.

Module ExcerptClaims.

Lemma split_length (t : pystr) (part ms : Z) :
  0 < part -> 0 <= ms ->
  py_len (py_strip (py_strip (py_slice t 0 part) ++ excerpt_sep ++
            py_strip (py_slice t ms (ms + part)) ++ excerpt_sep ++
            py_strip (py_slice t (- part) (py_len t)))) <= 3 * part + 10.
Proof.
  intros Hp Hms. unfold py_len at 1.
  pose proof (Excerpt.py_strip_length
    (py_strip (py_slice t 0 part) ++ excerpt_sep ++
     py_strip (py_slice t ms (ms + part)) ++ excerpt_sep ++
     py_strip (py_slice t (- part) (py_len t)))) as H.
  rewrite !length_app in H.
  pose proof (Excerpt.py_strip_length (py_slice t 0 part)).
  pose proof (Excerpt.py_strip_length (py_slice t ms (ms + part))).
  pose proof (Excerpt.py_strip_length (py_slice t (- part) (py_len t))).
  pose proof (Excerpt.py_slice_length_le t 0 part ltac:(lia) ltac:(lia)).
  pose proof (Excerpt.py_slice_length_le t ms (ms + part) ltac:(lia) ltac:(lia)).
  pose proof (Excerpt.py_slice_tail_length t part Hp).
  assert (length excerpt_sep = 5%nat) as Hs by reflexivity.
  lia.
Qed.

(** C1 (amended).  For a positive budget [max_chars] the excerpt has at most
    [max(max_chars, 610)] characters; when the normalised text has at most
    [max_chars] characters the excerpt is exactly the normalised text; and in
    the three-way split (budget above the 10-character separator overhead)
    each part is [max(200, (max_chars - 10) / 3)] characters, so the result
    has at most three such parts plus 10 characters.  Below a budget of 610
    the 200-character floor makes the parts exceed a third of the budget. *)
Theorem excerpt_bounded (text : pystr) (max_chars : Z) :
  0 < max_chars ->
  py_len (_excerpt_transcript text max_chars) <= Z.max max_chars 610 /\
  (py_len (_normalize_excerpt_text text) <= max_chars ->
   _excerpt_transcript text max_chars = _normalize_excerpt_text text) /\
  (10 < max_chars < py_len (_normalize_excerpt_text text) ->
   py_len (_excerpt_transcript text max_chars)
     <= 3 * Z.max 200 ((max_chars - 10) / 3) + 10).
Proof.
  intros Hm. unfold _excerpt_transcript. cbv zeta.
  rewrite Excerpt.excerpt_sep_length.
  set (t := _normalize_excerpt_text text).
  destruct (max_chars <=? 0) eqn:E0; [apply Z.leb_le in E0; lia|].
  destruct (py_len t <=? max_chars) eqn:E1.
  - apply Z.leb_le in E1. split; [lia|split; [done|lia]].
  - apply Z.leb_gt in E1.
    destruct (max_chars - 5 * 2 <=? 0) eqn:E2.
    + apply Z.leb_le in E2.
      pose proof (Excerpt.py_strip_length (py_slice t 0 max_chars)).
      pose proof (Excerpt.py_slice_length_le t 0 max_chars ltac:(lia) ltac:(lia)).
      unfold py_len at 1. split; [lia|split; lia].
    + apply Z.leb_gt in E2.
      replace (max_chars - 5 * 2) with (max_chars - 10) by lia.
      pose proof (split_length t (Z.max 200 ((max_chars - 10) / 3))
                    (Z.max 0 (py_len t / 2 - Z.max 200 ((max_chars - 10) / 3) / 2))
                    ltac:(lia) ltac:(lia)) as H.
      split; [|split; [lia|intros; exact H]].
      assert (3 * ((max_chars - 10) / 3) <= max_chars - 10)
        by (apply Z.mul_div_le; lia).
      lia.
Qed.

(** C1, as stated, fails: with a budget of 300 characters, a 1000-character
    transcript gives a 610-character excerpt, more than the budget plus the
    10-character separator overhead (and more than the spec's ~330). *)
Lemma excerpt_bounded_counterexample :
  py_len (_excerpt_transcript (repeat "a"%char 1000) 300) = 610 /\
  ~ (py_len (_excerpt_transcript (repeat "a"%char 1000) 300) <= 300 + 10).
Proof.
  assert (py_len (_excerpt_transcript (repeat "a"%char 1000) 300) = 610) as H
    by (vm_compute; reflexivity).
  rewrite H. split; [done|lia].
Qed.

Lemma excerpt_bounded_witness :
  0 < 300 /\
  py_len (_excerpt_transcript (repeat "a"%char 1000) 300) <= Z.max 300 610.
Proof.
  split; [lia|].
  apply (proj1 (excerpt_bounded (repeat "a"%char 1000) 300 ltac:(lia))).
Defined.

(** C9.  The whitespace normalisation applied before excerpting is
    idempotent: normalising an already normalised string changes nothing. *)
Theorem normalize_excerpt_text_idempotent (s : pystr) :
  _normalize_excerpt_text (_normalize_excerpt_text s) = _normalize_excerpt_text s.
Proof.
  destruct (Normalize.normalized_props s) as (Hcr & Hb & Hn).
  set (t := _normalize_excerpt_text s) in *.
  unfold _normalize_excerpt_text at 1. cbv zeta.
  rewrite (Normalize.replace_crlf_id t Hcr), (Normalize.replace_cr_id t Hcr).
  rewrite (Normalize.sub_blanks_id false t Hb), (Normalize.sub_newlines_id 0 t Hn).
  unfold t, _normalize_excerpt_text. apply Normalize.py_strip_idem.
Qed.

(** C10.  With a character budget of zero or less the excerpt is empty,
    whatever the transcript. *)
Theorem excerpt_nonpositive_budget (text : pystr) (max_chars : Z) :
  max_chars <= 0 -> _excerpt_transcript text max_chars = [].
Proof.
  intros H. unfold _excerpt_transcript. cbv zeta.
  destruct (max_chars <=? 0) eqn:E; [done|].
  apply Z.leb_gt in E. lia.
Qed.

Lemma excerpt_nonpositive_budget_witness :
  0 <= 0 /\ _excerpt_transcript (lit "some transcript") 0 = [].
Proof.
  split; [lia|]. apply (excerpt_nonpositive_budget (lit "some transcript") 0). lia.
Defined.

End ExcerptClaims.

Module Slices.

Lemma take_min_length (s : pystr) (k : nat) : take (Nat.min k (length s)) s = take k s.
Proof.
  revert k; induction s as [|c r IH]; intros [|k]; simpl; try done.
  by rewrite IH.
Qed.

(** [s[:k]] for [k >= 0] is [take k s]. *)
Lemma py_slice_prefix (s : pystr) (k : Z) : 0 <= k -> py_slice s 0 k = take (Z.to_nat k) s.
Proof.
  intros Hk. unfold py_slice, py_index. simpl.
  destruct (k <? 0) eqn:E; [apply Z.ltb_lt in E; lia|].
  replace (Z.to_nat (Z.min 0 (Z.of_nat (length s)))) with 0%nat by lia.
  rewrite Nat.sub_0_r, drop_0.
  replace (Z.to_nat (Z.min k (Z.of_nat (length s))))
    with (Nat.min (Z.to_nat k) (length s)) by lia.
  apply take_min_length.
Qed.

Lemma char_at_is_spec s i c : char_at_is s i c = true <-> s !! i = Some c.
Proof.
  unfold char_at_is. destruct (s !! i) as [d|]; split; try discriminate.
  - intros H. apply Ascii.eqb_eq in H. by subst.
  - intros H. injection H as ->. apply Ascii.eqb_refl.
Qed.

End Slices.

Module DateClaims.

(** C7 (amended).  [_format_date] returns "unknown date" when [publishedAt]
    is absent or the empty string; for a non-empty string, its first 10
    characters when it has at least 10 characters and a hyphen at offset 4;
    otherwise the RFC 2822 parse formatted as YYYY-MM-DD when the parse
    succeeds, and otherwise the first 20 characters of the string. *)
Theorem format_date_cases (rfc2822_ymd : pystr -> option pystr) (published_at : option pystr) :
  (published_at = None \/ published_at = Some [] ->
   _format_date rfc2822_ymd published_at = lit "unknown date") /\
  (forall s, published_at = Some s -> (10 <= length s)%nat -> s !! 4%nat = Some "-"%char ->
   _format_date rfc2822_ymd published_at = take 10 s) /\
  (forall s, published_at = Some s -> s <> [] ->
   ~ ((10 <= length s)%nat /\ s !! 4%nat = Some "-"%char) ->
   _format_date rfc2822_ymd published_at =
     match rfc2822_ymd s with Some d => d | None => take 20 s end).
Proof.
  split; [|split].
  - by intros [-> | ->].
  - intros s -> Hlen H4. destruct s as [|c r]; [simpl in Hlen; lia|].
    unfold _format_date.
    apply Slices.char_at_is_spec in H4.
    assert ((10 <=? length (c :: r))%nat = true) as -> by (apply Nat.leb_le; done).
    rewrite H4. simpl andb. cbv iota beta.
    by rewrite Slices.py_slice_prefix by lia.
  - intros s -> Hne Hnot. destruct s as [|c r]; [done|].
    unfold _format_date.
    destruct ((10 <=? length (c :: r))%nat && char_at_is (c :: r) 4 "-")%bool eqn:E.
    + apply andb_prop in E as [E1 E2].
      apply Nat.leb_le in E1. apply Slices.char_at_is_spec in E2. tauto.
    + destruct (rfc2822_ymd (c :: r)); [done|].
      by rewrite Slices.py_slice_prefix by lia.
Qed.

Lemma format_date_cases_witness :
  _format_date (fun _ => None) (Some (lit "2026-02-10T08:00:00Z")) = lit "2026-02-10".
Proof.
  apply (proj1 (proj2 (format_date_cases (fun _ => None) (Some (lit "2026-02-10T08:00:00Z"))))
           (lit "2026-02-10T08:00:00Z")); [reflexivity|simpl; lia|reflexivity].
Defined.

(** C7, as stated, fails: for the empty string the spec's rule gives the
    first 20 characters of the raw string (the empty string), while the
    code's [if not published_at] guard returns "unknown date". *)
Lemma format_date_counterexample :
  _format_date (fun _ => None) (Some []) = lit "unknown date" /\
  format_date_spec (fun _ => None) (Some []) = [] /\
  _format_date (fun _ => None) (Some []) <> format_date_spec (fun _ => None) (Some []).
Proof.
  split; [reflexivity|split; [reflexivity|]].
  vm_compute. discriminate.
Qed.

End DateClaims.

Module IdentityClaims.

(** C6.  The episode identity is the entry's [id] when it is a non-empty
    string, else its [guid] when that is a non-empty string; otherwise it is
    the first 32 characters of the SHA-256 hex digest of
    [feed_url ++ ":" ++ title] ([title] defaulting to "unknown"), which has
    exactly 32 characters and depends on nothing but [feed_url] and the
    title: two guid-less entries with the same title get the same id. *)
Theorem get_episode_id_cases (sha256_hexdigest : pystr -> pystr)
    (entry : feed_entry) (feed_url : pystr) :
  (forall g, entry_id entry = Some g -> g <> [] ->
   _get_episode_id sha256_hexdigest entry feed_url = g) /\
  (forall g, truthy (entry_id entry) = false -> entry_guid entry = Some g -> g <> [] ->
   _get_episode_id sha256_hexdigest entry feed_url = g) /\
  (truthy (entry_id entry) = false -> truthy (entry_guid entry) = false ->
   _get_episode_id sha256_hexdigest entry feed_url =
     take 32 (sha256_hexdigest (feed_url ++ lit ":" ++
                                get_default (entry_title entry) (lit "unknown"))) /\
   ((forall s, (32 <= length (sha256_hexdigest s))%nat) ->
    length (_get_episode_id sha256_hexdigest entry feed_url) = 32%nat) /\
   (forall entry', truthy (entry_id entry') = false -> truthy (entry_guid entry') = false ->
    entry_title entry' = entry_title entry ->
    _get_episode_id sha256_hexdigest entry' feed_url =
      _get_episode_id sha256_hexdigest entry feed_url)).
Proof.
  assert (Hfb : forall e, truthy (entry_id e) = false -> truthy (entry_guid e) = false ->
     _get_episode_id sha256_hexdigest e feed_url =
     take 32 (sha256_hexdigest (feed_url ++ lit ":" ++
                                get_default (entry_title e) (lit "unknown")))).
  { intros e H1 H2. unfold _get_episode_id, py_or. rewrite H1.
    destruct (entry_guid e) as [[|c r]|]; [| discriminate|];
      cbv zeta; by rewrite Slices.py_slice_prefix by lia. }
  split; [|split].
  - intros g Hg Hne. unfold _get_episode_id, py_or. rewrite Hg.
    by destruct g.
  - intros g H1 Hg Hne. unfold _get_episode_id, py_or. rewrite H1, Hg.
    by destruct g.
  - intros H1 H2. split; [|split].
    + by apply Hfb.
    + intros Hlen. rewrite (Hfb entry H1 H2), length_take.
      specialize (Hlen (feed_url ++ lit ":" ++ get_default (entry_title entry) (lit "unknown"))).
      lia.
    + intros e' H1' H2' Ht. rewrite (Hfb e' H1' H2'), (Hfb entry H1 H2). by rewrite Ht.
Qed.

Lemma get_episode_id_cases_witness :
  length (_get_episode_id (fun _ => repeat "0"%char 64)
            {| entry_id := None; entry_guid := Some []; entry_title := Some (lit "Ep 1") |}
            (lit "https://example.com/feed.xml")) = 32%nat.
Proof.
  apply (proj1 (proj2 (proj2 (proj2 (get_episode_id_cases (fun _ => repeat "0"%char 64)
            {| entry_id := None; entry_guid := Some []; entry_title := Some (lit "Ep 1") |}
            (lit "https://example.com/feed.xml"))) eq_refl eq_refl))).
  intros s. simpl. lia.
Defined.

End IdentityClaims.

Module CacheClaims.

(** C2 (amended).  When the cache path of [audio_url] holds no file, a
    failure of the request or of [raise_for_status] leaves the cache as it
    was; a failure while streaming leaves at the cache path a file holding
    the chunks received so far, and every later [download_audio] for the
    same URL returns that path as a cache hit, whatever the network does,
    without changing the cache. *)
Theorem download_audio_failure (sha256_hexdigest : pystr -> pystr)
    (fs : gmap pystr bytes) (audio_url cache_dir : pystr) (resp : http_response) :
  let p := _episode_cache_path sha256_hexdigest audio_url cache_dir in
  fs !! p = None ->
  ((resp = ConnectFailure \/ resp = HttpErrorStatus) ->
   download_audio sha256_hexdigest fs audio_url cache_dir resp = (fs, DownloadRaised)) /\
  (forall chunks, resp = Body chunks StreamBroken ->
   download_audio sha256_hexdigest fs audio_url cache_dir resp
     = (<[p := concat chunks]> fs, DownloadRaised) /\
   forall resp',
     download_audio sha256_hexdigest (<[p := concat chunks]> fs) audio_url cache_dir resp'
       = (<[p := concat chunks]> fs, Downloaded p)).
Proof.
  intros p Hp. unfold download_audio. fold p.
  rewrite bool_decide_eq_false_2 by (rewrite Hp; intros [? ?]; discriminate).
  split.
  - by intros [-> | ->].
  - intros chunks ->. split; [done|].
    intros resp'. rewrite bool_decide_eq_true_2; [done|].
    rewrite lookup_insert_eq. eauto.
Qed.

Lemma download_audio_failure_witness :
  download_audio (fun _ => repeat "0"%char 64) ∅ (lit "https://example.com/ep.mp3")
    (lit "cache") (Body [[Byte.x01]] StreamBroken)
  = (<[lit "cache/0000000000000000.mp3" := [Byte.x01]]> ∅, DownloadRaised).
Proof.
  apply (proj1 (proj2 (download_audio_failure (fun _ => repeat "0"%char 64) ∅
           (lit "https://example.com/ep.mp3") (lit "cache") (Body [[Byte.x01]] StreamBroken)
           (lookup_empty _)) [[Byte.x01]] eq_refl)).
Defined.

(** C2, as stated, fails: a download of https://example.com/ep.mp3 into an
    empty cache that breaks after one chunk leaves
    cache/0000000000000000.mp3 behind, and the next call returns it as a
    cache hit even though the network is down. *)
Lemma download_audio_partial_counterexample :
  let sha := fun _ : pystr => repeat "0"%char 64 in
  let url := lit "https://example.com/ep.mp3" in
  let '(fs', r) := download_audio sha ∅ url (lit "cache") (Body [[Byte.x01]] StreamBroken) in
  r = DownloadRaised /\
  fs' !! (lit "cache/0000000000000000.mp3") = Some [Byte.x01] /\
  download_audio sha fs' url (lit "cache") ConnectFailure
    = (fs', Downloaded (lit "cache/0000000000000000.mp3")).
Proof. vm_compute. split; [reflexivity|split; reflexivity]. Qed.

End CacheClaims.

Module StoreClaims.

Lemma store_episode_lookup conn now i fn fu ti pa au ap tr ts k r :
  store_episode conn now i fn fu ti pa au ap tr ts !! k = Some r ->
  (k <> i /\ conn !! k = Some r) \/
  (k = i /\ ep_transcript r = Some tr /\ ep_transcript_source r = ts /\
   ep_audio_path r = ap /\ ep_scraped_at r = now /\
   ep_word_count r = Some (word_count_of tr)).
Proof.
  unfold store_episode, word_count_of.
  destruct (conn !! i) as [old|] eqn:Hi;
    (destruct (decide (k = i)) as [->|Hne];
     [rewrite lookup_insert_eq; intros [= <-]; right; simpl; tauto
     |rewrite lookup_insert_ne by congruence; intros H; left; tauto]).
Qed.

(** C4.  On a conflict ([id] already stored), [store_episode] replaces only
    [transcript], [transcript_source], [audio_path], [scraped_at] and
    [word_count] of that row; its [id], [feed_name], [feed_url], [title],
    [published_at] and [audio_url] keep their stored values, and every
    other row is unchanged. *)
Theorem store_episode_conflict_frame (conn : episode_table) (now : pystr)
    (episode_id feed_name feed_url title : pystr)
    (published_at audio_url audio_path : option pystr)
    (transcript : pystr) (transcript_source : option pystr) (old : episode_row) :
  conn !! episode_id = Some old ->
  store_episode conn now episode_id feed_name feed_url title published_at audio_url
    audio_path transcript transcript_source !! episode_id
  = Some {| ep_id := ep_id old; ep_feed_name := ep_feed_name old;
            ep_feed_url := ep_feed_url old; ep_title := ep_title old;
            ep_published_at := ep_published_at old; ep_audio_url := ep_audio_url old;
            ep_audio_path := audio_path; ep_transcript := Some transcript;
            ep_transcript_source := transcript_source; ep_scraped_at := now;
            ep_word_count := Some (word_count_of transcript) |} /\
  (forall k, k <> episode_id ->
   store_episode conn now episode_id feed_name feed_url title published_at audio_url
     audio_path transcript transcript_source !! k = conn !! k).
Proof.
  intros Hold. unfold store_episode. rewrite Hold. split.
  - by rewrite lookup_insert_eq.
  - intros k Hk. by rewrite lookup_insert_ne by congruence.
Qed.

Lemma store_episode_conflict_frame_witness :
  ep_title (default sample_row
    (store_episode {[lit "guid-1" := sample_row]} (lit "2026-02-11T09:00:00")
       (lit "guid-1") (lit "Other show") (lit "https://other.example/rss") (lit "Renamed")
       None None (Some (lit "/cache/1.mp3")) (lit "new transcript text")
       (Some (lit "whisper")) !! lit "guid-1")) = lit "Episode 1".
Proof.
  rewrite (proj1 (store_episode_conflict_frame {[lit "guid-1" := sample_row]}
    (lit "2026-02-11T09:00:00") (lit "guid-1") (lit "Other show")
    (lit "https://other.example/rss") (lit "Renamed") None None (Some (lit "/cache/1.mp3"))
    (lit "new transcript text") (Some (lit "whisper")) sample_row
    (lookup_singleton_eq _ _))).
  reflexivity.
Defined.

Lemma word_count_of_split t : word_count_of t = Z.of_nat (length (py_split t)).
Proof. by destruct t. Qed.

Lemma store_episode_word_count conn now i fn fu ti pa au ap tr ts :
  map_Forall (fun _ => word_count_consistent) conn ->
  map_Forall (fun _ => word_count_consistent) (store_episode conn now i fn fu ti pa au ap tr ts).
Proof.
  intros Hall k r Hk.
  destruct (store_episode_lookup _ _ _ _ _ _ _ _ _ _ _ _ _ Hk)
    as [[_ Hc] | (_ & Ht & _ & _ & _ & Hw)].
  - exact (Hall k r Hc).
  - unfold word_count_consistent. by rewrite Ht, Hw, word_count_of_split.
Qed.

(** C5.  In every table state reachable by [store_episode] calls, each row's
    [word_count] is the number of whitespace-separated tokens of its
    transcript (0 for an absent or empty transcript). *)
Theorem word_count_invariant (conn : episode_table) :
  store_reachable conn -> map_Forall (fun _ => word_count_consistent) conn.
Proof.
  induction 1.
  - apply map_Forall_empty.
  - by apply store_episode_word_count.
Qed.

Lemma word_count_invariant_witness :
  store_reachable (store_episode ∅ (lit "2026-02-11T09:00:00") (lit "guid-1") (lit "Show")
    (lit "https://example.com/rss") (lit "Episode 1") None None None
    (lit " two  words ") (Some (lit "podcast2.0"))) /\
  map_Forall (fun _ => word_count_consistent)
    (store_episode ∅ (lit "2026-02-11T09:00:00") (lit "guid-1") (lit "Show")
    (lit "https://example.com/rss") (lit "Episode 1") None None None
    (lit " two  words ") (Some (lit "podcast2.0"))).
Proof.
  assert (H : store_reachable (store_episode ∅ (lit "2026-02-11T09:00:00") (lit "guid-1") (lit "Show")
    (lit "https://example.com/rss") (lit "Episode 1") None None None
    (lit " two  words ") (Some (lit "podcast2.0"))))
    by (apply store_reachable_store, store_reachable_empty).
  split; [exact H|]. apply (word_count_invariant _ H).
Defined.

End StoreClaims.

Module PipelineClaims.

Lemma store_keeps_source_iff conn now i fn fu ti pa au ap tr ts :
  map_Forall (fun _ => source_iff_transcript) conn ->
  truthy (Some tr) = true -> is_Some ts ->
  map_Forall (fun _ => source_iff_transcript)
    (store_episode conn now i fn fu ti pa au ap tr ts).
Proof.
  intros Hall Htr Hts k r Hk.
  destruct (StoreClaims.store_episode_lookup _ _ _ _ _ _ _ _ _ _ _ _ _ Hk)
    as [[_ Hc] | (_ & Ht & Hs & _)].
  - exact (Hall k r Hc).
  - unfold source_iff_transcript. rewrite Ht, Hs. tauto.
Qed.

Lemma scrape_episode_cases conn now ep fetched audio :
  (scrape_episode conn now ep fetched audio).1 = conn \/
  exists ap tr ts,
    truthy (Some tr) = true /\ is_Some ts /\
    (scrape_episode conn now ep fetched audio).1 =
      store_episode conn now (fe_id ep) (fe_feed_name ep) (fe_feed_url ep) (fe_title ep)
        (fe_published_at ep) (fe_audio_url ep) ap tr ts.
Proof.
  unfold scrape_episode.
  case_bool_decide; [by left|].
  destruct (fe_transcript_url ep) as [[|]|], fetched as [[|]|],
    (fe_audio_url ep) as [[|]|], audio as [|ap [|c tr]];
    simpl; try (by left); right; by repeat eexists.
Qed.

Lemma scrape_episode_keeps_source_iff conn now ep fetched audio :
  map_Forall (fun _ => source_iff_transcript) conn ->
  map_Forall (fun _ => source_iff_transcript) (scrape_episode conn now ep fetched audio).1.
Proof.
  intros Hall.
  destruct (scrape_episode_cases conn now ep fetched audio)
    as [-> | (ap & tr & ts & Htr & Hts & ->)]; [done|].
  by apply store_keeps_source_iff.
Qed.

(** C8.  In every table state the scrape pipeline ([cmd_scrape], and the
    same per-episode body of [cmd_adhoc]) produces from an empty table,
    every row has a non-empty transcript and a [transcript_source], so the
    source is set if and only if the transcript is non-empty; episodes
    without an acquired transcript are never stored. *)
Theorem pipeline_source_iff_transcript (conn : episode_table) :
  pipeline_reachable conn -> map_Forall (fun _ => source_iff_transcript) conn.
Proof.
  induction 1.
  - apply map_Forall_empty.
  - by apply scrape_episode_keeps_source_iff.
Qed.

Lemma pipeline_source_iff_transcript_witness :
  pipeline_reachable
    (scrape_episode ∅ (lit "2026-02-11T09:00:00") sample_episode (Some [])
       (AudioTranscribed (lit "cache/1.mp3") (lit "hello world"))).1 /\
  map_Forall (fun _ => source_iff_transcript)
    (scrape_episode ∅ (lit "2026-02-11T09:00:00") sample_episode (Some [])
       (AudioTranscribed (lit "cache/1.mp3") (lit "hello world"))).1.
Proof.
  assert (H : pipeline_reachable
    (scrape_episode ∅ (lit "2026-02-11T09:00:00") sample_episode (Some [])
       (AudioTranscribed (lit "cache/1.mp3") (lit "hello world"))).1)
    by (apply pipeline_reachable_step, pipeline_reachable_empty).
  split; [exact H|]. apply (pipeline_source_iff_transcript _ H).
Defined.

End PipelineClaims.

Module ExportClaims.

Lemma dd_get_spec d k v c :
  dd_get d k = (v, c) ->
  v = default 0 (d !! k) /\ forall f, default 0 (c !! f) = default 0 (d !! f).
Proof.
  unfold dd_get. destruct (d !! k) as [w|] eqn:Hk; intros [= <- <-]; split; try done.
  intros f. destruct (decide (f = k)) as [->|Hne].
  - by rewrite lookup_insert_eq, Hk.
  - by rewrite lookup_insert_ne by congruence.
Qed.

Lemma select_loop_break mt mp ec eps sel counts :
  mt <= Z.of_nat (length sel) -> select_loop mt mp ec eps sel counts = (sel, counts).
Proof.
  intros H. destruct eps as [|ep rest]; [done|]. simpl.
  destruct (mt <=? Z.of_nat (length sel)) eqn:E; [done|]. apply Z.leb_gt in E. lia.
Qed.

(** One iteration of the loop: break, skip a blank transcript, skip an
    entry of a feed at its cap, or select the entry. *)
Lemma select_loop_step mt mp ec ep rest sel counts :
  let fn := ep_feed_name ep in
  let tr := get_default (ep_transcript ep) [] in
  (mt <= Z.of_nat (length sel) /\
   select_loop mt mp ec (ep :: rest) sel counts = (sel, counts)) \/
  (Z.of_nat (length sel) < mt /\ blank_transcript ep /\
   select_loop mt mp ec (ep :: rest) sel counts = select_loop mt mp ec rest sel counts) \/
  (Z.of_nat (length sel) < mt /\ ~ blank_transcript ep /\
   exists counts', (forall f, default 0 (counts' !! f) = default 0 (counts !! f)) /\
   select_loop mt mp ec (ep :: rest) sel counts = select_loop mt mp ec rest sel counts') \/
  (Z.of_nat (length sel) < mt /\ ~ blank_transcript ep /\
   (0 < mp -> default 0 (counts !! fn) < mp) /\
   exists counts', (forall f, default 0 (counts' !! f) = default 0 (counts !! f)) /\
   select_loop mt mp ec (ep :: rest) sel counts =
     select_loop mt mp ec rest (sel ++ [json_item ep tr fn ec])
       (<[fn := default 0 (counts !! fn) + 1]> counts')).
Proof.
  intros fn tr. simpl. fold fn tr.
  destruct (mt <=? Z.of_nat (length sel)) eqn:E0;
    [left; apply Z.leb_le in E0; done|right; apply Z.leb_gt in E0].
  unfold blank_transcript. fold tr.
  case_bool_decide as Hb; [left; done|right].
  destruct (0 <? mp) eqn:Ep.
  - destruct (dd_get counts fn) as [v c] eqn:Hd.
    destruct (dd_get_spec _ _ _ _ Hd) as [-> Hc].
    destruct (mp <=? default 0 (counts !! fn)) eqn:Ecap.
    + left. split; [done|split; [done|]]. by exists c.
    + right. apply Z.leb_gt in Ecap. split; [done|split; [done|split; [done|]]].
      destruct (dd_get c fn) as [v' c'] eqn:Hd'.
      destruct (dd_get_spec _ _ _ _ Hd') as [-> Hc'].
      exists c'. split; [intros f; by rewrite Hc', Hc|]. by rewrite Hc.
  - right. apply Z.ltb_ge in Ep. split; [done|split; [done|split; [lia|]]].
    destruct (dd_get counts fn) as [v c] eqn:Hd.
    destruct (dd_get_spec _ _ _ _ Hd) as [-> Hc].
    by exists c.
Qed.

Lemma feed_total_snoc f sel j :
  feed_total f (sel ++ [j]) = (feed_total f sel + if decide (feedName j = f) then 1 else 0)%nat.
Proof.
  unfold feed_total. rewrite filter_app, length_app, filter_cons.
  destruct (decide (feedName j = f)); simpl; lia.
Qed.

Lemma counts_inv_select sel counts counts' ep tr fn ec :
  counts_inv sel counts ->
  (forall f, default 0 (counts' !! f) = default 0 (counts !! f)) ->
  fn = ep_feed_name ep ->
  counts_inv (sel ++ [json_item ep tr fn ec]) (<[fn := default 0 (counts !! fn) + 1]> counts').
Proof.
  intros Hinv Hc -> f. rewrite feed_total_snoc. simpl.
  destruct (decide (ep_feed_name ep = f)) as [<-|Hne].
  - rewrite lookup_insert_eq. simpl. rewrite Hinv. lia.
  - rewrite lookup_insert_ne by done. rewrite Hc, Hinv. lia.
Qed.

Lemma select_loop_caps mt mp ec eps sel counts :
  counts_inv sel counts ->
  Z.of_nat (length sel) <= Z.max 0 mt ->
  (0 < mp -> forall f, Z.of_nat (feed_total f sel) <= mp) ->
  let r := select_loop mt mp ec eps sel counts in
  counts_inv r.1 r.2 /\
  Z.of_nat (length r.1) <= Z.max 0 mt /\
  (0 < mp -> forall f, Z.of_nat (feed_total f r.1) <= mp).
Proof.
  revert sel counts; induction eps as [|ep rest IH]; intros sel counts Hinv Hlen Hfeed; cbv zeta.
  { done. }
  destruct (select_loop_step mt mp ec ep rest sel counts)
    as [[_ ->] | [(_ & _ & ->) | [(_ & _ & c & Hc & ->) | (Hlt & _ & Hcap & c & Hc & ->)]]].
  - done.
  - by apply IH.
  - apply IH; [|done|done]. intros f. by rewrite Hc, Hinv.
  - apply IH.
    + by apply counts_inv_select.
    + rewrite length_app. simpl. lia.
    + intros Hmp f. rewrite feed_total_snoc. simpl.
      destruct (decide (ep_feed_name ep = f)) as [<-|]; [|rewrite Nat.add_0_r; by apply Hfeed].
      specialize (Hcap Hmp). rewrite Hinv in Hcap. lia.
Qed.

Lemma select_loop_filter_blank mt mp ec eps sel counts :
  select_loop mt mp ec (filter (fun ep => ~ blank_transcript ep) eps) sel counts =
  select_loop mt mp ec eps sel counts.
Proof.
  revert sel counts; induction eps as [|ep rest IH]; intros sel counts; [done|].
  destruct (decide (blank_transcript ep)) as [Hb|Hb].
  - rewrite filter_cons_False by tauto.
    destruct (select_loop_step mt mp ec ep rest sel counts)
      as [[Hle ->] | [(_ & _ & ->) | [(_ & Hnb & _) | (_ & Hnb & _)]]]; try done.
    by apply select_loop_break.
  - rewrite filter_cons_True by done.
    simpl. destruct (mt <=? Z.of_nat (length sel)); [done|].
    unfold blank_transcript in Hb.
    rewrite bool_decide_eq_false_2 by done.
    destruct (0 <? mp); [destruct (dd_get counts (ep_feed_name ep)) as [v c];
                         destruct (mp <=? v)|]; simpl; try apply IH;
      destruct (dd_get _ (ep_feed_name ep)); apply IH.
Qed.

Lemma feed_total_pos f sel : (0 < feed_total f sel)%nat <-> f ∈ feedName <$> sel.
Proof.
  unfold feed_total. induction sel as [|j sel IH]; simpl.
  - split; [lia|intros H; inversion H].
  - rewrite elem_of_cons. destruct (decide (feedName j = f)) as [<-|Hne].
    + rewrite filter_cons_True by done. simpl. split; [by left|lia].
    + rewrite filter_cons_False by done. rewrite IH. split; [by right|].
      intros [->|]; [done|done].
Qed.

Lemma feed_count_spec sel counts :
  counts_inv sel counts ->
  length (filter (fun kv : pystr * Z => 0 < kv.2) (map_to_list counts)) =
  size (list_to_set (feedName <$> sel) : gset pystr).
Proof.
  intros Hinv.
  set (L := filter (fun kv : pystr * Z => 0 < kv.2) (map_to_list counts)).
  assert (HL : NoDup L.*1).
  { apply NoDup_fmap_fst.
    - intros x y1 y2 H1 H2. unfold L in H1, H2.
      apply list_elem_of_filter in H1 as [_ H1], H2 as [_ H2].
      apply elem_of_map_to_list in H1, H2. congruence.
    - apply NoDup_filter, NoDup_map_to_list. }
  rewrite <- (length_fmap fst L), <- (size_list_to_set (C:=gset pystr) _ HL).
  f_equal. apply set_eq. intros k.
  rewrite !elem_of_list_to_set, list_elem_of_fmap, <- feed_total_pos.
  split.
  - intros [[k' v] [-> Hin]]. unfold L in Hin.
    apply list_elem_of_filter in Hin as [Hv Hin]. apply elem_of_map_to_list in Hin.
    simpl in *. specialize (Hinv k'). rewrite Hin in Hinv. simpl in Hinv. lia.
  - intros Hpos. specialize (Hinv k).
    destruct (counts !! k) as [v|] eqn:Hk; simpl in Hinv; [|lia].
    exists (k, v). split; [done|]. unfold L.
    apply list_elem_of_filter. split; [simpl; lia|]. by apply elem_of_map_to_list.
Qed.

(** C3 (amended).  In the bounded JSON export, [episodeCount] is the number
    of selected entries and is at most [max(0, max_episodes_total)]; when
    [max_episodes_per_feed > 0] no feed has more than [max_episodes_per_feed]
    selected entries (a cap of 0 or less disables the per-feed limit);
    entries whose transcript is absent, empty or whitespace-only are skipped
    without affecting either cap: dropping them from the input gives the same
    payload; and [feedCount] is the number of distinct feed names among the
    selected entries. *)
Theorem export_json_caps (eps : list episode_row) (lookback_hours : Z)
    (max_episodes_total max_episodes_per_feed excerpt_chars : Z) :
  let p := export_transcripts_json eps lookback_hours
             max_episodes_total max_episodes_per_feed excerpt_chars in
  episodeCount p = Z.of_nat (length (episodes p)) /\
  episodeCount p <= Z.max 0 max_episodes_total /\
  (0 < max_episodes_per_feed -> forall f,
     Z.of_nat (length (filter (fun j => feedName j = f) (episodes p))) <= max_episodes_per_feed) /\
  export_transcripts_json
    (filter (fun ep => py_strip (get_default (ep_transcript ep) []) <> []) eps)
    lookback_hours max_episodes_total max_episodes_per_feed excerpt_chars = p /\
  feedCount p = Z.of_nat (size (list_to_set (feedName <$> episodes p) : gset pystr)).
Proof.
  intros p. unfold p, export_transcripts_json.
  pose proof (select_loop_filter_blank max_episodes_total max_episodes_per_feed
                excerpt_chars eps [] ∅) as Hf.
  unfold blank_transcript in Hf. rewrite Hf.
  pose proof (select_loop_caps max_episodes_total max_episodes_per_feed excerpt_chars
                eps [] ∅) as Hc.
  assert (H0 : counts_inv [] ∅) by (intros f; by rewrite lookup_empty).
  specialize (Hc H0 ltac:(simpl; lia) ltac:(intros Hmp f; unfold feed_total; simpl; lia)).
  destruct (select_loop max_episodes_total max_episodes_per_feed excerpt_chars eps [] ∅)
    as [sel counts].
  destruct Hc as (Hinv & Hlen & Hfeed).
  simpl in *. split; [done|split; [done|split; [exact Hfeed|split; [done|]]]].
  by rewrite (feed_count_spec sel counts Hinv).
Qed.

Lemma export_json_caps_witness :
  0 < 1 /\
  Z.of_nat (length (filter (fun j => feedName j = lit "A")
    (episodes (export_transcripts_json
       [row_of_feed (lit "1") (lit "A") (lit "x"); row_of_feed (lit "2") (lit "A") (lit "y")]
       168 40 1 100)))) <= 1.
Proof.
  split; [lia|].
  apply (proj1 (proj2 (proj2 (export_json_caps
       [row_of_feed (lit "1") (lit "A") (lit "x"); row_of_feed (lit "2") (lit "A") (lit "y")]
       168 40 1 100)))). lia.
Defined.

(** C3, as stated, fails: with [max_episodes_per_feed = 0] the guard
    [max_episodes_per_feed > 0] turns the per-feed cap off, and two entries
    of feed "A" are both selected, more than the cap of 0. *)
Lemma export_json_caps_counterexample :
  let p := export_transcripts_json
             [row_of_feed (lit "1") (lit "A") (lit "x"); row_of_feed (lit "2") (lit "A") (lit "y")]
             168 40 0 100 in
  length (filter (fun j => feedName j = lit "A") (episodes p)) = 2%nat /\
  ~ (Z.of_nat (length (filter (fun j => feedName j = lit "A") (episodes p))) <= 0).
Proof.
  assert (H : length (filter (fun j => feedName j = lit "A")
     (episodes (export_transcripts_json
        [row_of_feed (lit "1") (lit "A") (lit "x"); row_of_feed (lit "2") (lit "A") (lit "y")]
        168 40 0 100))) = 2%nat) by (vm_compute; reflexivity).
  cbv zeta. rewrite H. split; [done|lia].
Qed.

End ExportClaims.

(** * Further properties of the code *)

Module StoreExtras.

(** Storing the same episode twice is the same as storing it once, with
    the later timestamp: the upsert is idempotent. *)
Theorem store_episode_idempotent conn now1 now2 i fn fu ti pa au ap tr ts :
  store_episode (store_episode conn now1 i fn fu ti pa au ap tr ts) now2 i fn fu ti pa au ap tr ts
  = store_episode conn now2 i fn fu ti pa au ap tr ts.
Proof.
  unfold store_episode; cbv zeta.
  destruct (conn !! i); rewrite lookup_insert_eq; simpl; by rewrite insert_insert_eq.
Qed.

(** [episode_exists] after [store_episode]: the stored id now exists, and
    every other id exists exactly when it did before (no row is removed). *)
Theorem store_episode_exists conn now i fn fu ti pa au ap tr ts k :
  episode_exists (store_episode conn now i fn fu ti pa au ap tr ts) k
  = (bool_decide (k = i) || episode_exists conn k)%bool.
Proof.
  unfold episode_exists, store_episode.
  destruct (decide (k = i)) as [->|Hne].
  - rewrite (bool_decide_eq_true_2 (i = i)) by done.
    destruct (conn !! i); rewrite lookup_insert_eq; by rewrite bool_decide_eq_true_2.
  - rewrite (bool_decide_eq_false_2 (k = i)) by done.
    destruct (conn !! i); by rewrite lookup_insert_ne by congruence.
Qed.



End StoreExtras.

Module CacheExtras.



(** A completed download on a cache miss writes the concatenated chunks to
    the cache path and touches no other file; every later call for the same
    URL is then a cache hit, whatever the network does. *)
Theorem download_audio_then_hit sha256_hexdigest fs audio_url cache_dir chunks :
  let p := _episode_cache_path sha256_hexdigest audio_url cache_dir in
  fs !! p = None ->
  let '(fs', r) := download_audio sha256_hexdigest fs audio_url cache_dir (Body chunks StreamDone) in
  r = Downloaded p /\ fs' !! p = Some (concat chunks) /\
  (forall q, q <> p -> fs' !! q = fs !! q) /\
  (forall resp, download_audio sha256_hexdigest fs' audio_url cache_dir resp = (fs', Downloaded p)).
Proof.
  intros p Hp. unfold download_audio at 1. fold p.
  rewrite bool_decide_eq_false_2 by (rewrite Hp; apply is_Some_None).
  split; [done|]. split; [apply lookup_insert_eq|]. split.
  - intros q Hq. by rewrite lookup_insert_ne by congruence.
  - intros resp. unfold download_audio. fold p.
    rewrite bool_decide_eq_true_2 by (rewrite lookup_insert_eq; by eexists). done.
Qed.

Lemma download_audio_then_hit_witness :
  (∅ : gmap pystr bytes) !! _episode_cache_path (fun _ => repeat "0"%char 64)
     (lit "https://e.com/a.ogg?x=1") (lit "/cache") = None /\
  forall resp,
    download_audio (fun _ => repeat "0"%char 64)
      ({[lit "/cache/0000000000000000.ogg" := [Byte.x01; Byte.x02]]} : gmap pystr bytes)
      (lit "https://e.com/a.ogg?x=1") (lit "/cache") resp
    = ({[lit "/cache/0000000000000000.ogg" := [Byte.x01; Byte.x02]]} : gmap pystr bytes,
       Downloaded (lit "/cache/0000000000000000.ogg")).
Proof.
  pose proof (download_audio_then_hit (fun _ => repeat "0"%char 64) ∅
    (lit "https://e.com/a.ogg?x=1") (lit "/cache") [[Byte.x01]; [Byte.x02]]
    (lookup_empty _)) as H.
  assert (E : download_audio (fun _ => repeat "0"%char 64) ∅ (lit "https://e.com/a.ogg?x=1")
      (lit "/cache") (Body [[Byte.x01]; [Byte.x02]] StreamDone)
    = ({[lit "/cache/0000000000000000.ogg" := [Byte.x01; Byte.x02]]} : gmap pystr bytes,
       Downloaded (lit "/cache/0000000000000000.ogg"))) by (vm_compute; reflexivity).
  rewrite E in H.
  destruct H as (_ & _ & _ & H).
  split; [apply lookup_empty | exact H].
Defined.

(** The cache file name is the URL hash followed by one of the candidate
    extensions: the one the lower-cased URL ends with once its query string
    is dropped, or [.mp3] when it ends with none of them. *)
Theorem episode_cache_path_ext sha256_hexdigest audio_url cache_dir :
  exists ext,
    _episode_cache_path sha256_hexdigest audio_url cache_dir =
      os_path_join cache_dir (py_slice (sha256_hexdigest audio_url) 0 16 ++ ext) /\
    ext ∈ audio_ext_candidates /\
    (py_endswith (before_qmark (py_lower audio_url)) ext = true \/
     (ext = lit ".mp3" /\
      Forall (fun c => py_endswith (before_qmark (py_lower audio_url)) c = false)
        audio_ext_candidates)).
Proof.
  unfold _episode_cache_path.
  set (u := before_qmark (py_lower audio_url)).
  eexists. split; [reflexivity|].
  unfold audio_ext_candidates; simpl.
  repeat match goal with
  | |- context [if py_endswith u ?c then _ else _] =>
      let E := fresh "E" in destruct (py_endswith u c) eqn:E
  end;
  (split; [by apply (bool_decide_unpack _)|]);
  first [by left | right; split; [reflexivity | by repeat constructor]].
Qed.

End CacheExtras.

Module ScrapeExtras.

Lemma store_episode_self conn now i fn fu ti pa au ap tr ts :
  is_Some (store_episode conn now i fn fu ti pa au ap tr ts !! i).
Proof. unfold store_episode. destruct (conn !! i); rewrite lookup_insert_eq; by eexists. Qed.

Lemma store_episode_other conn now i fn fu ti pa au ap tr ts k :
  k <> i -> store_episode conn now i fn fu ti pa au ap tr ts !! k = conn !! k.
Proof. intros Hk. unfold store_episode. destruct (conn !! i); by rewrite lookup_insert_ne by congruence. Qed.

Lemma scrape_episode_outcome_table conn now ep fetched audio :
  ((scrape_episode conn now ep fetched audio).2 = Stored ->
   conn !! fe_id ep = None /\ is_Some ((scrape_episode conn now ep fetched audio).1 !! fe_id ep)) /\
  ((scrape_episode conn now ep fetched audio).2 <> Stored ->
   (scrape_episode conn now ep fetched audio).1 = conn).
Proof.
  unfold scrape_episode.
  case_bool_decide as Hex; [simpl; split; [discriminate | done]|].
  apply eq_None_not_Some in Hex.
  destruct (fe_transcript_url ep) as [[|]|], fetched as [[|]|],
    (fe_audio_url ep) as [[|]|], audio as [|ap [|c tr]];
    simpl; split; intros Hs; try done; split; try done; apply store_episode_self.
Qed.

(** [scrape_episode] never rewrites a stored row and never touches another
    episode's row: the only possible change is adding a row for a new id. *)
Theorem scrape_episode_frame conn now ep fetched audio k :
  k <> fe_id ep \/ is_Some (conn !! k) ->
  (scrape_episode conn now ep fetched audio).1 !! k = conn !! k.
Proof.
  intros Hk. destruct (decide (k = fe_id ep)) as [->|Hne].
  - destruct Hk as [Hk|Hk]; [done|].
    unfold scrape_episode. by rewrite bool_decide_eq_true_2 by exact Hk.
  - destruct (PipelineClaims.scrape_episode_cases conn now ep fetched audio)
      as [-> | (ap & tr & ts & _ & _ & ->)]; [done|by apply store_episode_other].
Qed.

Lemma scrape_episode_frame_witness :
  (lit "guid-2" <> fe_id sample_episode \/ is_Some (({[lit "guid-1" := sample_row]} : episode_table) !! lit "guid-2")) /\
  (scrape_episode {[lit "guid-1" := sample_row]} (lit "2026-02-11T09:00:00") sample_episode
     (Some (lit "text")) AudioRaised).1 !! lit "guid-2"
  = ({[lit "guid-1" := sample_row]} : episode_table) !! lit "guid-2".
Proof.
  assert (H : lit "guid-2" <> fe_id sample_episode \/
              is_Some (({[lit "guid-1" := sample_row]} : episode_table) !! lit "guid-2"))
    by (left; discriminate).
  split; [exact H|].
  exact (scrape_episode_frame {[lit "guid-1" := sample_row]} (lit "2026-02-11T09:00:00")
    sample_episode (Some (lit "text")) AudioRaised (lit "guid-2") H).
Defined.

(** The outcome and the table agree: [Stored] exactly when the episode's
    id was new and now has a row; every other outcome leaves the table as
    it was. *)
Theorem scrape_episode_stored_iff conn now ep fetched audio :
  ((scrape_episode conn now ep fetched audio).2 = Stored <->
   conn !! fe_id ep = None /\ is_Some ((scrape_episode conn now ep fetched audio).1 !! fe_id ep)) /\
  ((scrape_episode conn now ep fetched audio).2 <> Stored ->
   (scrape_episode conn now ep fetched audio).1 = conn).
Proof.
  destruct (scrape_episode_outcome_table conn now ep fetched audio) as [H1 H2].
  split; [|exact H2]. split; [exact H1|].
  intros [Hn Hs].
  destruct ((scrape_episode conn now ep fetched audio).2) eqn:E; try done;
    rewrite H2, Hn in Hs by discriminate; by apply is_Some_None in Hs.
Qed.

(** Once an episode has been stored (or was already there), scraping it
    again skips it without calling either strategy and changes nothing. *)
Theorem scrape_episode_rescrape_skips conn now now' ep fetched fetched' audio audio' :
  (scrape_episode conn now ep fetched audio).2 = Stored \/
  (scrape_episode conn now ep fetched audio).2 = Skipped ->
  scrape_episode (scrape_episode conn now ep fetched audio).1 now' ep fetched' audio'
  = ((scrape_episode conn now ep fetched audio).1, Skipped).
Proof.
  intros Hout. unfold scrape_episode at 1. rewrite bool_decide_eq_true_2; [done|].
  destruct Hout as [Hs|Hs].
  - by destruct (scrape_episode_outcome_table conn now ep fetched audio) as [[_ H] _].
  - revert Hs. unfold scrape_episode.
    case_bool_decide as Hex; [done|].
    destruct (fe_transcript_url ep) as [[|]|], fetched as [[|]|],
      (fe_audio_url ep) as [[|]|], audio as [|ap [|c tr]]; simpl; discriminate.
Qed.

Lemma scrape_episode_rescrape_skips_witness :
  ((scrape_episode ∅ (lit "2026-02-11T09:00:00") sample_episode (Some (lit "text")) AudioRaised).2
     = Stored \/
   (scrape_episode ∅ (lit "2026-02-11T09:00:00") sample_episode (Some (lit "text")) AudioRaised).2
     = Skipped) /\
  (scrape_episode
     (scrape_episode ∅ (lit "2026-02-11T09:00:00") sample_episode (Some (lit "text")) AudioRaised).1
     (lit "2026-02-12T09:00:00") sample_episode None AudioRaised).2 = Skipped.
Proof.
  assert (H : (scrape_episode ∅ (lit "2026-02-11T09:00:00") sample_episode
                 (Some (lit "text")) AudioRaised).2 = Stored \/
              (scrape_episode ∅ (lit "2026-02-11T09:00:00") sample_episode
                 (Some (lit "text")) AudioRaised).2 = Skipped)
    by (left; reflexivity).
  split; [exact H|].
  rewrite (scrape_episode_rescrape_skips ∅ (lit "2026-02-11T09:00:00") (lit "2026-02-12T09:00:00")
    sample_episode (Some (lit "text")) None AudioRaised AudioRaised H).
  reflexivity.
Defined.

(** Strategy 1 first: a publisher transcript that downloads non-empty is
    stored with source [podcast2.0] and no audio path, and the audio
    strategy is never consulted. *)
Theorem scrape_episode_publisher_first conn now ep fetched audio :
  conn !! fe_id ep = None ->
  truthy (fe_transcript_url ep) = true -> truthy fetched = true ->
  scrape_episode conn now ep fetched audio =
    (store_episode conn now (fe_id ep) (fe_feed_name ep) (fe_feed_url ep) (fe_title ep)
       (fe_published_at ep) (fe_audio_url ep) None (get_default fetched [])
       (Some (lit "podcast2.0")), Stored).
Proof.
  intros Hn Ht Hf. unfold scrape_episode.
  rewrite bool_decide_eq_false_2 by (rewrite Hn; apply is_Some_None).
  rewrite Ht. destruct fetched as [[|c f]|]; [discriminate| |discriminate]. reflexivity.
Qed.

Lemma scrape_episode_publisher_first_witness :
  (∅ : episode_table) !! fe_id sample_episode = None /\
  truthy (fe_transcript_url sample_episode) = true /\ truthy (Some (lit "hello")) = true /\
  (scrape_episode ∅ (lit "2026-02-11T09:00:00") sample_episode (Some (lit "hello")) AudioRaised).2
    = Stored.
Proof.
  split; [apply lookup_empty|]. split; [reflexivity|]. split; [reflexivity|].
  rewrite (scrape_episode_publisher_first ∅ (lit "2026-02-11T09:00:00") sample_episode
    (Some (lit "hello")) AudioRaised (lookup_empty _) eq_refl eq_refl).
  reflexivity.
Defined.

(** Strategy 2 when strategy 1 gives nothing: with an audio URL, a raising
    download or transcription is a failure that stores nothing; otherwise a
    non-empty transcript is stored with source [whisper] and the cached
    audio path, and an empty one stores nothing. *)
Theorem scrape_episode_whisper_fallback conn now ep fetched :
  conn !! fe_id ep = None ->
  (truthy (fe_transcript_url ep) && truthy fetched)%bool = false ->
  truthy (fe_audio_url ep) = true ->
  scrape_episode conn now ep fetched AudioRaised = (conn, Failed) /\
  (forall audio_path tr,
    scrape_episode conn now ep fetched (AudioTranscribed audio_path tr) =
      if truthy (Some tr)
      then (store_episode conn now (fe_id ep) (fe_feed_name ep) (fe_feed_url ep) (fe_title ep)
              (fe_published_at ep) (fe_audio_url ep) (Some audio_path) tr
              (Some (lit "whisper")), Stored)
      else (conn, NoTranscript)).
Proof.
  intros Hn Ht Ha. unfold scrape_episode.
  rewrite bool_decide_eq_false_2 by (rewrite Hn; apply is_Some_None).
  destruct (fe_transcript_url ep) as [[|]|], fetched as [[|]|], (fe_audio_url ep) as [[|]|];
    simpl in Ht, Ha |- *; try discriminate; (split; [done|]); intros ap [|c tr]; done.
Qed.

Lemma scrape_episode_whisper_fallback_witness :
  (∅ : episode_table) !! fe_id sample_episode = None /\
  (truthy (fe_transcript_url sample_episode) && truthy None)%bool = false /\
  truthy (fe_audio_url sample_episode) = true /\
  scrape_episode ∅ (lit "2026-02-11T09:00:00") sample_episode None AudioRaised = (∅, Failed).
Proof.
  split; [apply lookup_empty|]. split; [reflexivity|]. split; [reflexivity|].
  exact (proj1 (scrape_episode_whisper_fallback ∅ (lit "2026-02-11T09:00:00") sample_episode None
    (lookup_empty _) eq_refl eq_refl)).
Defined.

End ScrapeExtras.

Module FeedExtras.

Section Sorting.

Variable struct_time : Type.
Variable mktime : struct_time -> Z.

Local Abbreviation ts := (_get_entry_timestamp struct_time mktime).
Local Abbreviation ins := (insert_newest struct_time mktime).
Local Abbreviation newer := (fun a b : raw_entry struct_time => ts b <= ts a).

Lemma insert_newest_perm x l : ins x l ≡ₚ x :: l.
Proof.
  induction l as [|y r IH]; simpl; [done|].
  destruct (ts y <? ts x); [done|]. rewrite IH. apply perm_swap.
Qed.

Lemma insert_newest_sorted x l : StronglySorted newer l -> StronglySorted newer (ins x l).
Proof.
  induction l as [|y r IH]; simpl; intros H.
  - repeat constructor.
  - inversion H as [|? ? Hr Hall]; subst.
    destruct (ts y <? ts x) eqn:E; [apply Z.ltb_lt in E|apply Z.ltb_ge in E].
    + constructor; [exact H|]. constructor; [lia|].
      eapply Forall_impl; [exact Hall|]. simpl. lia.
    + constructor; [by apply IH|].
      apply Forall_forall. intros z Hz.
      rewrite (insert_newest_perm x r) in Hz.
      apply elem_of_cons in Hz as [->|Hz]; [lia|]. by apply (proj1 (Forall_forall _ _) Hall).
Qed.

Lemma filter_ts_none k l :
  Forall (fun e => ts e <> k) l -> filter (fun e => ts e = k) l = [].
Proof.
  induction 1; [done|]. rewrite filter_cons. by destruct (decide (ts x = k)).
Qed.

Lemma insert_newest_filter k x l :
  StronglySorted newer l ->
  filter (fun e => ts e = k) (ins x l) =
    filter (fun e => ts e = k) l ++ filter (fun e => ts e = k) [x].
Proof.
  induction l as [|y r IH]; simpl; intros H; [done|].
  inversion H as [|? ? Hr Hall]; subst.
  destruct (ts y <? ts x) eqn:E; [apply Z.ltb_lt in E|apply Z.ltb_ge in E].
  - rewrite (filter_cons _ x (y :: r)), (filter_cons _ x []).
    destruct (decide (ts x = k)) as [Hk|Hk].
    + rewrite filter_ts_none, filter_nil; [done|].
      constructor; [lia|]. eapply Forall_impl; [exact Hall|]. simpl. lia.
    + by rewrite filter_nil, app_nil_r.
  - rewrite !(filter_cons _ y), IH by done.
    by destruct (decide (ts y = k)).
Qed.

Lemma sort_fold_props l acc :
  StronglySorted newer acc ->
  let S := fold_left (fun a x => ins x a) l acc in
  StronglySorted newer S /\ S ≡ₚ l ++ acc /\
  forall k, filter (fun e => ts e = k) S =
            filter (fun e => ts e = k) acc ++ filter (fun e => ts e = k) l.
Proof.
  revert acc. induction l as [|x l IH]; intros acc Hacc; simpl.
  - split; [done|]. split; [done|]. intros k. by rewrite filter_nil, app_nil_r.
  - destruct (IH (ins x acc) (insert_newest_sorted x acc Hacc)) as (HS & HP & HF).
    split; [exact HS|]. split.
    + rewrite HP, insert_newest_perm. by rewrite Permutation_middle.
    + intros k. rewrite HF, insert_newest_filter by done.
      rewrite (filter_cons _ x l), (filter_cons _ x []), filter_nil.
      destruct (decide (ts x = k)); simpl; by rewrite <- app_assoc.
Qed.

Lemma strongly_sorted_app {A} (R : A -> A -> Prop) l1 l2 :
  StronglySorted R (l1 ++ l2) -> forall y x, y ∈ l1 -> x ∈ l2 -> R y x.
Proof.
  induction l1 as [|z l1 IH]; intros H y x Hy Hx; [by apply not_elem_of_nil in Hy|].
  inversion H as [|? ? Hs Hall]; subst.
  apply elem_of_cons in Hy as [->|Hy]; [|by apply IH].
  apply (proj1 (Forall_forall _ _) Hall). apply elem_of_app. by right.
Qed.

End Sorting.


(** [parse_feed] returns the episodes of the [max_episodes] newest entries
    (Python slice rules for [[:max_episodes]]), newest first: the entries are
    reordered by decreasing timestamp, entries with equal timestamps keep
    the feed's order, and no dropped entry is newer than a kept one. *)
Theorem parse_feed_newest sha256_hexdigest struct_time mktime feed_name feed_url bozo entries
    max_episodes eps :
  parse_feed sha256_hexdigest struct_time mktime feed_name feed_url bozo entries max_episodes
    = Some eps ->
  let ts := _get_entry_timestamp struct_time mktime in
  let n := py_index (length entries) max_episodes in
  exists sorted_entries,
    sorted_entries ≡ₚ entries /\
    (forall k, filter (fun e => ts e = k) sorted_entries = filter (fun e => ts e = k) entries) /\
    StronglySorted (fun a b => ts b <= ts a) sorted_entries /\
    eps = map (entry_to_episode sha256_hexdigest struct_time feed_name feed_url)
            (take n sorted_entries) /\
    length eps = Nat.min n (length entries) /\
    (forall kept dropped, kept ∈ take n sorted_entries -> dropped ∈ drop n sorted_entries ->
       ts dropped <= ts kept).
Proof.
  unfold parse_feed. destruct (bozo && bool_decide (entries = []))%bool; [discriminate|].
  intros [= <-]. set (n := py_index (length entries) max_episodes).
  destruct (sort_fold_props struct_time mktime entries [] (SSorted_nil _)) as (HS & HP & HF).
  exists (sort_newest_first struct_time mktime entries).
  unfold sort_newest_first. rewrite app_nil_r in HP.
  split; [exact HP|]. split; [intros k; by rewrite HF, filter_nil|]. split; [exact HS|].
  unfold py_prefix. rewrite (Permutation_length HP).
  split; [done|]. split; [by rewrite length_map, length_take, (Permutation_length HP)|].
  intros kept dropped Hk Hd.
  rewrite <- (take_drop n (fold_left _ _ _)) in HS.
  exact (strongly_sorted_app _ _ _ HS kept dropped Hk Hd).
Qed.

Lemma parse_feed_newest_witness :
  parse_feed (fun _ => []) Z (fun t => t) (lit "Show") (lit "https://example.com/rss") false
    [sample_raw_entry (lit "a") 1; sample_raw_entry (lit "b") 3; sample_raw_entry (lit "c") 3] 2
  = Some [entry_to_episode (fun _ => []) Z (lit "Show") (lit "https://example.com/rss")
            (sample_raw_entry (lit "b") 3);
          entry_to_episode (fun _ => []) Z (lit "Show") (lit "https://example.com/rss")
            (sample_raw_entry (lit "c") 3)] /\
  length [entry_to_episode (fun _ => []) Z (lit "Show") (lit "https://example.com/rss")
            (sample_raw_entry (lit "b") 3);
          entry_to_episode (fun _ => []) Z (lit "Show") (lit "https://example.com/rss")
            (sample_raw_entry (lit "c") 3)] = Nat.min 2 3.
Proof.
  assert (H : parse_feed (fun _ => []) Z (fun t => t) (lit "Show") (lit "https://example.com/rss")
    false [sample_raw_entry (lit "a") 1; sample_raw_entry (lit "b") 3; sample_raw_entry (lit "c") 3] 2
  = Some [entry_to_episode (fun _ => []) Z (lit "Show") (lit "https://example.com/rss")
            (sample_raw_entry (lit "b") 3);
          entry_to_episode (fun _ => []) Z (lit "Show") (lit "https://example.com/rss")
            (sample_raw_entry (lit "c") 3)]) by reflexivity.
  split; [exact H|].
  destruct (parse_feed_newest _ _ _ _ _ _ _ _ _ H) as (S & _ & _ & _ & _ & Hl & _).
  exact Hl.
Defined.

End FeedExtras.

Module FeedFieldExtras.

Lemma audio_from_enclosures_nonempty encs h : audio_from_enclosures encs = Some h -> h <> [].
Proof.
  induction encs as [|enc rest IH]; simpl; [discriminate|].
  destruct (py_or (enc_href enc) (enc_url enc)) as [[|c r]|]; simpl; [exact IH| |exact IH].
  destruct (_ || _)%bool; [intros [= <-]; discriminate|exact IH].
Qed.

Lemma audio_from_links_empty links :
  audio_from_links links = Some [] ->
  exists l, l ∈ links /\ get_default (link_href l) [] = [] /\
            py_in (lit "audio") (get_default (link_type l) []) = true.
Proof.
  induction links as [|l rest IH]; cbn [audio_from_links]; [discriminate|].
  destruct (py_in (lit "audio") (get_default (link_type l) []) ||
            py_endswith_any (py_lower (get_default (link_href l) [])) feed_audio_exts)%bool eqn:E.
  - intros [= Hh]. exists l. split; [apply elem_of_cons; by left|]. split; [done|].
    rewrite Hh in E. change (py_endswith_any (py_lower []) feed_audio_exts) with false in E.
    by rewrite orb_false_r in E.
  - intros H. destruct (IH H) as (l' & Hl' & Hh & Ht).
    exists l'. split; [apply elem_of_cons; by right|]. done.
Qed.

(** Enclosures win: once an enclosure qualifies, [_get_audio_url] returns
    its non-empty URL whatever the links say. *)
Theorem get_audio_url_enclosure_first (struct_time : Type) (entry entry' : raw_entry struct_time) :
  is_Some (audio_from_enclosures (re_enclosures entry)) ->
  re_enclosures entry' = re_enclosures entry ->
  _get_audio_url struct_time entry' = _get_audio_url struct_time entry /\
  truthy (_get_audio_url struct_time entry) = true.
Proof.
  intros [h Hh] He. unfold _get_audio_url. rewrite He, Hh. split; [done|].
  apply audio_from_enclosures_nonempty in Hh. by destruct h.
Qed.

Lemma get_audio_url_enclosure_first_witness :
  is_Some (audio_from_enclosures (re_enclosures (sample_audio_entry []))) /\
  re_enclosures (sample_audio_entry [hrefless_audio_link]) = re_enclosures (sample_audio_entry []) /\
  _get_audio_url Z (sample_audio_entry [hrefless_audio_link]) =
    _get_audio_url Z (sample_audio_entry []).
Proof.
  assert (H : is_Some (audio_from_enclosures (re_enclosures (sample_audio_entry []))))
    by (eexists; reflexivity).
  split; [exact H|]. split; [reflexivity|].
  exact (proj1 (get_audio_url_enclosure_first Z (sample_audio_entry [])
    (sample_audio_entry [hrefless_audio_link]) H eq_refl)).
Defined.

(** The only way [_get_audio_url] returns an empty URL: no enclosure
    qualifies and some link whose type mentions "audio" has no [href]. *)
Theorem get_audio_url_empty (struct_time : Type) (entry : raw_entry struct_time) :
  _get_audio_url struct_time entry = Some [] ->
  audio_from_enclosures (re_enclosures entry) = None /\
  exists l, l ∈ re_links entry /\ get_default (link_href l) [] = [] /\
            py_in (lit "audio") (get_default (link_type l) []) = true.
Proof.
  unfold _get_audio_url.
  destruct (audio_from_enclosures (re_enclosures entry)) as [h|] eqn:He.
  - intros [= ->]. by apply audio_from_enclosures_nonempty in He.
  - intros H. split; [done|]. by apply audio_from_links_empty.
Qed.

Lemma get_audio_url_empty_witness :
  let entry := {| re_base := {| entry_id := Some (lit "guid-1"); entry_guid := None;
                                entry_title := None |};
                  re_published_parsed := None; re_updated_parsed := None;
                  re_published := None; re_updated := None; re_enclosures := [];
                  re_links := [hrefless_audio_link] |} : raw_entry Z in
  _get_audio_url Z entry = Some [] /\ audio_from_enclosures (re_enclosures entry) = None.
Proof.
  intros entry.
  assert (H : _get_audio_url Z entry = Some []) by reflexivity.
  split; [exact H|]. exact (proj1 (get_audio_url_empty Z entry H)).
Defined.

(** [_get_entry_date] never yields an empty string, so for every episode
    [parse_feed] returns, [_format_date] of its [published_at] is the rule
    that prints "unknown date" only for a missing date. *)
Theorem parse_feed_format_date rfc2822_ymd sha256_hexdigest struct_time mktime feed_name feed_url
    bozo entries max_episodes eps :
  parse_feed sha256_hexdigest struct_time mktime feed_name feed_url bozo entries max_episodes
    = Some eps ->
  Forall (fun ep => _format_date rfc2822_ymd (fe_published_at ep) =
                    format_date_spec rfc2822_ymd (fe_published_at ep)) eps.
Proof.
  unfold parse_feed. destruct (bozo && bool_decide (entries = []))%bool; [discriminate|].
  intros [= <-].
  induction (py_prefix (sort_newest_first struct_time mktime entries) max_episodes)
    as [|x l IH]; simpl; constructor; [|exact IH].
  unfold entry_to_episode, _get_entry_date; simpl.
  destruct (re_published x) as [[|]|], (re_updated x) as [[|]|]; reflexivity.
Qed.

Lemma parse_feed_format_date_witness :
  parse_feed (fun _ => []) Z (fun t => t) (lit "Show") (lit "https://example.com/rss") false
    [sample_raw_entry (lit "a") 1] 1
  = Some [entry_to_episode (fun _ => []) Z (lit "Show") (lit "https://example.com/rss")
            (sample_raw_entry (lit "a") 1)] /\
  Forall (fun ep => _format_date (fun _ => Some (lit "2026-02-10")) (fe_published_at ep) =
                    format_date_spec (fun _ => Some (lit "2026-02-10")) (fe_published_at ep))
    [entry_to_episode (fun _ => []) Z (lit "Show") (lit "https://example.com/rss")
       (sample_raw_entry (lit "a") 1)].
Proof.
  assert (H : parse_feed (fun _ => []) Z (fun t => t) (lit "Show") (lit "https://example.com/rss")
    false [sample_raw_entry (lit "a") 1] 1
  = Some [entry_to_episode (fun _ => []) Z (lit "Show") (lit "https://example.com/rss")
            (sample_raw_entry (lit "a") 1)]) by reflexivity.
  split; [exact H|].
  exact (parse_feed_format_date (fun _ => Some (lit "2026-02-10")) _ _ _ _ _ _ _ _ _ H).
Defined.

End FeedFieldExtras.

Module ExportExtras.

Local Abbreviation item ec :=
  (fun ep : episode_row => json_item ep (get_default (ep_transcript ep) []) (ep_feed_name ep) ec).

Lemma select_loop_sublist mt mp ec eps sel counts :
  exists sub, sub `sublist_of` eps /\
    Forall (fun ep => ~ blank_transcript ep) sub /\
    (select_loop mt mp ec eps sel counts).1 = sel ++ map (item ec) sub.
Proof.
  revert sel counts. induction eps as [|ep rest IH]; intros sel counts.
  - exists []. split; [done|]. split; [done|]. simpl. by rewrite app_nil_r.
  - destruct (ExportClaims.select_loop_step mt mp ec ep rest sel counts)
      as [(_ & ->)|[(_ & _ & ->)|[(_ & _ & c' & _ & ->)|(_ & Hnb & _ & c' & _ & ->)]]].
    + exists []. split; [apply sublist_nil_l|]. split; [done|]. simpl. by rewrite app_nil_r.
    + destruct (IH sel counts) as (sub & Hs & Hf & He).
      exists sub. split; [by apply sublist_cons|]. done.
    + destruct (IH sel c') as (sub & Hs & Hf & He).
      exists sub. split; [by apply sublist_cons|]. done.
    + destruct (IH (sel ++ [json_item ep (get_default (ep_transcript ep) []) (ep_feed_name ep) ec])
        (<[ep_feed_name ep := default 0 (counts !! ep_feed_name ep) + 1]> c'))
        as (sub & Hs & Hf & He).
      exists (ep :: sub). split; [by apply sublist_skip|]. split; [by constructor|].
      rewrite He. simpl. by rewrite <- app_assoc.
Qed.

(** The JSON export keeps the fetch order: its episodes are the items of a
    sublist of the fetched rows, each with a non-blank transcript. *)
Theorem export_json_order eps lookback_hours mt mp ec :
  exists sub, sub `sublist_of` eps /\
    Forall (fun ep => ~ blank_transcript ep) sub /\
    episodes (export_transcripts_json eps lookback_hours mt mp ec) = map (item ec) sub.
Proof.
  unfold export_transcripts_json.
  destruct (select_loop_sublist mt mp ec eps [] ∅) as (sub & Hs & Hf & He).
  destruct (select_loop mt mp ec eps [] ∅) as [sel counts]. simpl in *.
  by exists sub.
Qed.

Lemma select_loop_no_feed_cap mt mp ec eps sel counts :
  mp <= 0 ->
  (select_loop mt mp ec eps sel counts).1 =
    sel ++ map (item ec)
      (take (Z.to_nat mt - length sel)
         (filter (fun ep => py_strip (get_default (ep_transcript ep) []) <> []) eps)).
Proof.
  intros Hmp. revert sel counts. induction eps as [|ep rest IH]; intros sel counts; simpl.
  - rewrite filter_nil, take_nil. simpl. by rewrite app_nil_r.
  - destruct (mt <=? Z.of_nat (length sel)) eqn:E0.
    + apply Z.leb_le in E0. replace (Z.to_nat mt - length sel)%nat with 0%nat by lia.
      simpl. by rewrite app_nil_r.
    + apply Z.leb_gt in E0. rewrite filter_cons.
      case_bool_decide as Hb.
      * rewrite decide_False by tauto. apply IH.
      * rewrite decide_True by done.
        replace (0 <? mp) with false by (symmetry; apply Z.ltb_ge; lia).
        destruct (dd_get counts (ep_feed_name ep)) as [v c]. simpl.
        rewrite IH, length_app. simpl.
        destruct (Z.to_nat mt - length sel)%nat as [|k] eqn:Ek; [lia|].
        replace (Z.to_nat mt - (length sel + 1))%nat with k by lia.
        simpl. by rewrite <- app_assoc.
Qed.

(** Without a per-feed cap ([max_episodes_per_feed <= 0]) the JSON export
    is the first [max_episodes_total] rows with a non-blank transcript. *)
Theorem export_json_no_feed_cap eps lookback_hours mt mp ec :
  mp <= 0 ->
  episodes (export_transcripts_json eps lookback_hours mt mp ec) =
    map (item ec)
      (take (Z.to_nat mt)
         (filter (fun ep => py_strip (get_default (ep_transcript ep) []) <> []) eps)).
Proof.
  intros Hmp. unfold export_transcripts_json.
  pose proof (select_loop_no_feed_cap mt mp ec eps [] ∅ Hmp) as H.
  destruct (select_loop mt mp ec eps [] ∅) as [sel counts]. simpl in *.
  rewrite H. by rewrite Nat.sub_0_r.
Qed.

Lemma export_json_no_feed_cap_witness :
  0 <= 0 /\
  length (episodes (export_transcripts_json
    [row_of_feed (lit "1") (lit "A") (lit "x"); row_of_feed (lit "2") (lit "A") (lit "  ");
     row_of_feed (lit "3") (lit "A") (lit "y"); row_of_feed (lit "4") (lit "A") (lit "z")]
    168 2 0 800)) = 2%nat.
Proof.
  split; [lia|].
  rewrite (export_json_no_feed_cap
    [row_of_feed (lit "1") (lit "A") (lit "x"); row_of_feed (lit "2") (lit "A") (lit "  ");
     row_of_feed (lit "3") (lit "A") (lit "y"); row_of_feed (lit "4") (lit "A") (lit "z")]
    168 2 0 800 ltac:(lia)).
  reflexivity.
Defined.

Lemma reachable_word_counts conn :
  store_reachable conn -> map_Forall (fun _ => word_count_consistent) conn.
Proof.
  induction 1; [apply map_Forall_empty|]. by apply StoreClaims.store_episode_word_count.
Qed.

Lemma export_blocks_consistent rfc2822_ymd eps :
  Forall word_count_consistent eps ->
  exists blocks, export_blocks rfc2822_ymd eps = Some (blocks, token_total (transcript_rows eps)) /\
                 length blocks = length (transcript_rows eps).
Proof.
  induction 1 as [|ep rest Hep Hrest IH]; [by exists []|].
  destruct IH as (blocks & Hb & Hl).
  unfold transcript_rows in *. rewrite filter_cons. cbn [export_blocks].
  destruct (truthy (ep_transcript ep)) eqn:Et.
  - rewrite decide_True by done. cbn [negb]. unfold word_count_consistent in Hep. rewrite Hep, Hb.
    exists ((export_header rfc2822_ymd ep ++ [LF] ++ get_default (ep_transcript ep) []) :: blocks).
    split; [|simpl; by rewrite Hl].
    unfold token_total. cbn [map fold_right].
    destruct (ep_transcript ep) as [t|]; [reflexivity|discriminate].
  - rewrite decide_False by congruence. by exists blocks.
Qed.

(** The text export of rows read from a table built by [store_episode]
    never meets a NULL word count: it succeeds, counts one block per row
    with a non-empty transcript, totals their token counts, and writes a
    file exactly when the fetch returned rows. *)
Theorem export_transcripts_reachable rfc2822_ymd conn eps :
  store_reachable conn ->
  Forall (fun ep => exists k, conn !! k = Some ep) eps ->
  exists r, export_transcripts rfc2822_ymd eps = Some r /\
    te_episode_count r = Z.of_nat (length (transcript_rows eps)) /\
    te_total_words r = token_total (transcript_rows eps) /\
    (te_file r = None <-> eps = []).
Proof.
  intros Hreach Hin.
  assert (Hc : Forall word_count_consistent eps).
  { pose proof (reachable_word_counts conn Hreach) as Hw.
    eapply Forall_impl; [exact Hin|]. intros ep [k Hk]. exact (Hw k ep Hk). }
  destruct eps as [|ep rest].
  - eexists. split; [reflexivity|]. simpl. split; [done|]. split; [done|]. done.
  - destruct (export_blocks_consistent rfc2822_ymd (ep :: rest) Hc) as (blocks & Hb & Hl).
    unfold export_transcripts. rewrite Hb.
    eexists. split; [reflexivity|]. simpl. split; [by rewrite Hl|]. split; [done|].
    split; discriminate.
Qed.

Lemma export_transcripts_reachable_witness :
  store_reachable {[lit "guid-1" := sample_row]} /\
  Forall (fun ep => exists k, ({[lit "guid-1" := sample_row]} : episode_table) !! k = Some ep)
    [sample_row] /\
  option_map te_total_words (export_transcripts (fun _ => None) [sample_row]) = Some 2.
Proof.
  assert (Hr : store_reachable {[lit "guid-1" := sample_row]}).
  { replace ({[lit "guid-1" := sample_row]} : episode_table) with
      (store_episode ∅ (lit "2026-02-10T09:00:00") (lit "guid-1") (lit "Show")
        (lit "https://example.com/rss") (lit "Episode 1") (Some (lit "2026-02-10"))
        (Some (lit "https://example.com/1.mp3")) None (lit "old text")
        (Some (lit "podcast2.0"))) by reflexivity.
    apply store_reachable_store, store_reachable_empty. }
  assert (Hin : Forall (fun ep => exists k, ({[lit "guid-1" := sample_row]} : episode_table) !! k
                                              = Some ep) [sample_row]).
  { constructor; [|constructor]. exists (lit "guid-1"). apply lookup_singleton_eq. }
  split; [exact Hr|]. split; [exact Hin|].
  destruct (export_transcripts_reachable (fun _ => None) _ _ Hr Hin) as (r & Hx & _ & Ht & _).
  rewrite Hx. simpl. by rewrite Ht.
Defined.

(** When the fetch returns rows but none has a transcript, the text
    export still writes the output file, containing a single newline, and
    reports zero episodes. *)
Theorem export_transcripts_no_transcripts rfc2822_ymd eps :
  eps <> [] -> Forall (fun ep => truthy (ep_transcript ep) = false) eps ->
  export_transcripts rfc2822_ymd eps =
    Some {| te_file := Some [LF]; te_episode_count := 0; te_total_words := 0 |}.
Proof.
  intros Hne Hall.
  assert (Hb : export_blocks rfc2822_ymd eps = Some ([], 0)).
  { clear Hne. induction Hall as [|ep rest Hep _ IH]; [done|]. simpl. by rewrite Hep. }
  destruct eps as [|ep rest]; [done|]. unfold export_transcripts. by rewrite Hb.
Qed.

Lemma export_transcripts_no_transcripts_witness :
  [row_of_feed (lit "1") (lit "A") []] <> [] /\
  Forall (fun ep => truthy (ep_transcript ep) = false) [row_of_feed (lit "1") (lit "A") []] /\
  export_transcripts (fun _ => None) [row_of_feed (lit "1") (lit "A") []] =
    Some {| te_file := Some [LF]; te_episode_count := 0; te_total_words := 0 |}.
Proof.
  assert (H1 : [row_of_feed (lit "1") (lit "A") []] <> []) by discriminate.
  assert (H2 : Forall (fun ep => truthy (ep_transcript ep) = false)
                 [row_of_feed (lit "1") (lit "A") []]) by (repeat constructor).
  split; [exact H1|]. split; [exact H2|].
  exact (export_transcripts_no_transcripts (fun _ => None) _ H1 H2).
Defined.

End ExportExtras.

Module LoopExtras.

Lemma scrape_step_table conn now ep fetched audio :
  conn ⊆ (scrape_episode conn now ep fetched audio).1 /\
  ((scrape_episode conn now ep fetched audio).2 = Stored ->
   size (scrape_episode conn now ep fetched audio).1 = S (size conn)) /\
  ((scrape_episode conn now ep fetched audio).2 <> Stored ->
   (scrape_episode conn now ep fetched audio).1 = conn).
Proof.
  destruct (ScrapeExtras.scrape_episode_outcome_table conn now ep fetched audio) as [H1 H2].
  destruct ((scrape_episode conn now ep fetched audio).2) eqn:Eo;
    try (rewrite H2 by discriminate; split; [reflexivity|split; [intros ?; discriminate|done]]).
  destruct (H1 eq_refl) as [Hn Hs].
  destruct (PipelineClaims.scrape_episode_cases conn now ep fetched audio)
    as [E | (ap & tr & ts & _ & _ & E)]; rewrite E in Hs |- *.
  - rewrite Hn in Hs. by apply is_Some_None in Hs.
  - unfold store_episode. rewrite Hn. split; [by apply insert_subseteq|].
    split; [intros _; by apply map_size_insert_None|done].
Qed.

(** The new-episode counter of the scrape loop is the number of rows the
    loop adds, and the loop never removes or changes a row. *)
Theorem scrape_loop_counts conn steps :
  let '(conn', total_new, total_skipped) := scrape_loop conn steps in
  Z.of_nat (size conn') = Z.of_nat (size conn) + total_new /\ conn ⊆ conn' /\
  0 <= total_new /\ 0 <= total_skipped /\
  total_new + total_skipped <= Z.of_nat (length steps).
Proof.
  revert conn. induction steps as [|[[[now ep] fetched] audio] rest IH]; intros conn; simpl.
  - split; [lia|]. split; [done|]. lia.
  - destruct (scrape_step_table conn now ep fetched audio) as (Hsub & Hst & Hne).
    destruct (scrape_episode conn now ep fetched audio) as [conn1 outcome]. simpl in *.
    specialize (IH conn1).
    destruct (scrape_loop conn1 rest) as [[conn2 n] k].
    destruct IH as (Hsize & Hsub' & Hn & Hk & Hlen).
    split; [|split; [by transitivity conn1|]].
    + destruct outcome; [rewrite (Hne ltac:(discriminate)) in Hsize; lia..|].
      rewrite Hsize, (Hst eq_refl). lia.
    + destruct outcome; lia.
Qed.

Lemma pipeline_store_reachable conn : pipeline_reachable conn -> store_reachable conn.
Proof.
  induction 1 as [|conn now ep fetched audio _ IH]; [constructor|].
  destruct (PipelineClaims.scrape_episode_cases conn now ep fetched audio)
    as [-> | (ap & tr & ts & _ & _ & ->)]; [done|]. by apply store_reachable_store.
Qed.

Lemma pipeline_rows_have_transcript conn :
  pipeline_reachable conn -> map_Forall (fun _ r => truthy (ep_transcript r) = true) conn.
Proof.
  induction 1 as [|conn now ep fetched audio _ IH]; [apply map_Forall_empty|].
  destruct (PipelineClaims.scrape_episode_cases conn now ep fetched audio)
    as [-> | (ap & tr & ts & Htr & _ & ->)]; [done|].
  intros k r Hk.
  destruct (StoreClaims.store_episode_lookup _ _ _ _ _ _ _ _ _ _ _ _ _ Hk)
    as [[_ Hc] | (_ & Ht & _)]; [exact (IH k r Hc)|]. by rewrite Ht.
Qed.

(** On a table built by the scrape pipeline every fetched row has a
    transcript, so the text export counts every fetched row, and
    [cmd_export] exits with status 1 exactly when the fetch returned no
    row. *)
Theorem export_after_pipeline rfc2822_ymd conn eps :
  pipeline_reachable conn ->
  Forall (fun ep => exists k, conn !! k = Some ep) eps ->
  exists r, export_transcripts rfc2822_ymd eps = Some r /\
    te_episode_count r = Z.of_nat (length eps) /\
    (te_episode_count r = 0 <-> eps = []).
Proof.
  intros Hp Hin.
  pose proof (ExportExtras.reachable_word_counts conn (pipeline_store_reachable conn Hp)) as Hw.
  pose proof (pipeline_rows_have_transcript conn Hp) as Ht.
  assert (Hrows : transcript_rows eps = eps).
  { unfold transcript_rows. clear -Hin Ht.
    induction Hin as [|ep rest [k Hk] _ IH]; [done|].
    rewrite filter_cons, decide_True by exact (Ht k ep Hk). by rewrite IH. }
  assert (Hc : Forall word_count_consistent eps).
  { eapply Forall_impl; [exact Hin|]. intros ep [k Hk]. exact (Hw k ep Hk). }
  destruct eps as [|ep rest].
  - eexists. split; [reflexivity|]. simpl. split; [done|]. done.
  - destruct (ExportExtras.export_blocks_consistent rfc2822_ymd (ep :: rest) Hc)
      as (blocks & Hb & Hl).
    unfold export_transcripts. rewrite Hb.
    eexists. split; [reflexivity|]. simpl. rewrite Hl, Hrows. split; [done|].
    simpl. split; [lia|discriminate].
Qed.

Lemma export_after_pipeline_witness :
  pipeline_reachable (scrape_episode ∅ (lit "2026-02-11T09:00:00") sample_episode
                        (Some (lit "hello world")) AudioRaised).1 /\
  Forall (fun ep => exists k,
      (scrape_episode ∅ (lit "2026-02-11T09:00:00") sample_episode
         (Some (lit "hello world")) AudioRaised).1 !! k = Some ep)
    [default sample_row ((scrape_episode ∅ (lit "2026-02-11T09:00:00") sample_episode
         (Some (lit "hello world")) AudioRaised).1 !! lit "guid-1")] /\
  option_map te_episode_count
    (export_transcripts (fun _ => None)
       [default sample_row ((scrape_episode ∅ (lit "2026-02-11T09:00:00") sample_episode
          (Some (lit "hello world")) AudioRaised).1 !! lit "guid-1")]) = Some 1.
Proof.
  assert (Hp : pipeline_reachable (scrape_episode ∅ (lit "2026-02-11T09:00:00") sample_episode
                        (Some (lit "hello world")) AudioRaised).1)
    by (apply pipeline_reachable_step, pipeline_reachable_empty).
  assert (Hin : Forall (fun ep => exists k,
      (scrape_episode ∅ (lit "2026-02-11T09:00:00") sample_episode
         (Some (lit "hello world")) AudioRaised).1 !! k = Some ep)
    [default sample_row ((scrape_episode ∅ (lit "2026-02-11T09:00:00") sample_episode
         (Some (lit "hello world")) AudioRaised).1 !! lit "guid-1")]).
  { constructor; [|constructor]. exists (lit "guid-1"). vm_compute. reflexivity. }
  split; [exact Hp|]. split; [exact Hin|].
  destruct (export_after_pipeline (fun _ => None) _ _ Hp Hin) as (r & Hx & Hc & _).
  rewrite Hx. simpl. by rewrite Hc.
Defined.

End LoopExtras.

Module ExcerptExtras.

Lemma lstrip_starts l : starts_nonspace (py_lstrip l).
Proof.
  induction l as [|c r IH]; simpl; [done|].
  destruct (py_isspace c) eqn:E; [done|]. exact E.
Qed.

Lemma lstrip_id l : starts_nonspace l -> py_lstrip l = l.
Proof. destruct l as [|c r]; simpl; [done|]. by intros ->. Qed.

Lemma rstrip_id l : ends_nonspace l -> py_rstrip l = l.
Proof. unfold py_rstrip, ends_nonspace. intros H. rewrite lstrip_id by done. apply rev_involutive. Qed.

Lemma rstrip_ends l : ends_nonspace (py_rstrip l).
Proof. unfold ends_nonspace, py_rstrip. rewrite rev_involutive. apply lstrip_starts. Qed.

Lemma starts_app a b : a <> [] -> starts_nonspace (a ++ b) <-> starts_nonspace a.
Proof. by destruct a. Qed.

Lemma ends_app a b : b <> [] -> ends_nonspace (a ++ b) <-> ends_nonspace b.
Proof.
  intros Hb. unfold ends_nonspace. rewrite rev_app_distr. apply starts_app.
  intros H. apply Hb. by apply (f_equal (@rev _)) in H; rewrite rev_involutive in H.
Qed.

Lemma lstrip_ends l : ends_nonspace l -> ends_nonspace (py_lstrip l).
Proof.
  intros H. destruct (Normalize.py_lstrip_suffix l) as [p Hp].
  destruct (py_lstrip l) as [|c r] eqn:E; [done|].
  rewrite Hp in H. by apply ends_app in H.
Qed.

Lemma rstrip_starts l : starts_nonspace l -> starts_nonspace (py_rstrip l).
Proof.
  intros H. destruct (Normalize.py_rstrip_prefix l) as [s Hs].
  destruct (py_rstrip l) as [|c r] eqn:E; [done|].
  rewrite Hs in H. by apply starts_app in H.
Qed.

Lemma strip_starts_ends l : starts_nonspace (py_strip l) /\ ends_nonspace (py_strip l).
Proof. split; [apply rstrip_starts, lstrip_starts|apply rstrip_ends]. Qed.

Lemma lstrip_nonempty l : ends_nonspace l -> l <> [] -> py_lstrip l <> [].
Proof.
  induction l as [|c r IH]; intros He Hne; [done|]. simpl.
  destruct (py_isspace c) eqn:Ec; [|done].
  destruct r as [|d r'].
  - unfold ends_nonspace in He. simpl in He. congruence.
  - apply IH; [|done]. rewrite (ends_app [c] (d :: r')) in He; [done|discriminate].
Qed.

Lemma rstrip_nonempty l : starts_nonspace l -> l <> [] -> py_rstrip l <> [].
Proof.
  intros Hs Hne. unfold py_rstrip. intros H.
  apply (f_equal (@rev _)) in H. rewrite rev_involutive in H. simpl in H.
  revert H. apply lstrip_nonempty.
  - unfold ends_nonspace. by rewrite rev_involutive.
  - intros H. apply Hne. by apply (f_equal (@rev _)) in H; rewrite rev_involutive in H.
Qed.

(** When the normalised transcript is longer than [max_chars] and the
    budget is positive, the excerpt is the joined three parts exactly (the
    final strip removes nothing): it begins with a non-empty prefix of the
    normalised transcript and ends with a non-empty suffix of it. *)
Theorem excerpt_shape (text : pystr) (max_chars : Z) :
  10 < max_chars -> max_chars < py_len (_normalize_excerpt_text text) ->
  exists h m tl,
    _excerpt_transcript text max_chars = h ++ excerpt_sep ++ m ++ excerpt_sep ++ tl /\
    h <> [] /\ h `prefix_of` _normalize_excerpt_text text /\
    tl <> [] /\ tl `suffix_of` _normalize_excerpt_text text.
Proof.
  intros Hm Hl. unfold _excerpt_transcript. cbv zeta.
  set (t := _normalize_excerpt_text text) in *.
  destruct (max_chars <=? 0) eqn:E1; [apply Z.leb_le in E1; lia|].
  destruct (py_len t <=? max_chars) eqn:E2; [apply Z.leb_le in E2; lia|].
  rewrite Excerpt.excerpt_sep_length.
  destruct (max_chars - 5 * 2 <=? 0) eqn:E3; [apply Z.leb_le in E3; lia|].
  set (part := Z.max 200 ((max_chars - 5 * 2) / 3)).
  assert (Hpart : 200 <= part) by lia.
  assert (Ht : starts_nonspace t /\ ends_nonspace t)
    by (unfold t, _normalize_excerpt_text; apply strip_starts_ends).
  destruct Ht as [Hts Hte].
  assert (Htne : t <> []) by (intros E; rewrite E in Hl; unfold py_len in Hl; simpl in Hl; lia).
  (* the head *)
  rewrite (Slices.py_slice_prefix t part) by lia.
  set (head := take (Z.to_nat part) t).
  assert (Hhne : head <> []).
  { unfold head. destruct t as [|c r]; [done|]. destruct (Z.to_nat part) eqn:Ep; [lia|done]. }
  assert (Hhs : starts_nonspace head).
  { apply (starts_app head (drop (Z.to_nat part) t)); [done|]. unfold head. by rewrite take_drop. }
  unfold py_strip at 2. rewrite (lstrip_id head Hhs).
  (* the tail *)
  set (a := Z.to_nat (Z.max 0 (Z.of_nat (length t) + - part))).
  assert (Htail : py_slice t (- part) (py_len t) = drop a t).
  { unfold py_slice, py_index, py_len.
    replace (- part <? 0) with true by (symmetry; apply Z.ltb_lt; lia).
    replace (Z.of_nat (length t) <? 0) with false by (symmetry; apply Z.ltb_ge; lia).
    fold a. replace (Z.to_nat (Z.min (Z.of_nat (length t)) (Z.of_nat (length t)))) with (length t)
      by lia.
    apply take_ge. rewrite length_drop. lia. }
  rewrite Htail.
  assert (Hane : drop a t <> []).
  { intros E. apply (f_equal length) in E. rewrite length_drop in E. simpl in E.
    unfold py_len in Hl. unfold a in E. lia. }
  assert (Hae : ends_nonspace (drop a t)).
  { apply (ends_app (take a t) (drop a t)); [done|]. by rewrite take_drop. }
  assert (Htl : py_strip (drop a t) = py_lstrip (drop a t)).
  { unfold py_strip. apply rstrip_id, lstrip_ends, Hae. }
  rewrite Htl.
  set (mid := py_strip (py_slice t _ _)).
  set (h := py_rstrip head). set (tl := py_lstrip (drop a t)).
  assert (Hh : h <> [] /\ starts_nonspace h) by (split; [by apply rstrip_nonempty|by apply rstrip_starts]).
  assert (Htl' : tl <> [] /\ ends_nonspace tl) by (split; [by apply lstrip_nonempty|by apply lstrip_ends]).
  destruct Hh as [Hhne' Hhs'], Htl' as [Htlne Htle].
  assert (Hout : py_strip (h ++ excerpt_sep ++ mid ++ excerpt_sep ++ tl) =
                 h ++ excerpt_sep ++ mid ++ excerpt_sep ++ tl).
  { unfold py_strip. rewrite lstrip_id by (by apply starts_app).
    apply rstrip_id.
    replace (h ++ excerpt_sep ++ mid ++ excerpt_sep ++ tl)
      with ((h ++ excerpt_sep ++ mid ++ excerpt_sep) ++ tl) by (by rewrite <- !app_assoc).
    by apply ends_app. }
  exists h, mid, tl. split; [exact Hout|]. split; [done|]. split.
  - destruct (Normalize.py_rstrip_prefix head) as [s Hs].
    exists (s ++ drop (Z.to_nat part) t). fold h in Hs.
    rewrite app_assoc, <- Hs. unfold head. by rewrite take_drop.
  - split; [done|].
    destruct (Normalize.py_lstrip_suffix (drop a t)) as [p Hp].
    exists (take a t ++ p). fold tl in Hp.
    rewrite <- app_assoc, <- Hp. by rewrite take_drop.
Qed.

Lemma excerpt_shape_witness :
  10 < 11 /\ 11 < py_len (_normalize_excerpt_text (lit "one two three four")) /\
  exists h m tl,
    _excerpt_transcript (lit "one two three four") 11 = h ++ excerpt_sep ++ m ++ excerpt_sep ++ tl /\
    h <> [] /\ h `prefix_of` _normalize_excerpt_text (lit "one two three four") /\
    tl <> [] /\ tl `suffix_of` _normalize_excerpt_text (lit "one two three four").
Proof.
  assert (H1 : 10 < 11) by lia.
  assert (H2 : 11 < py_len (_normalize_excerpt_text (lit "one two three four"))) by (vm_compute; reflexivity).
  split; [exact H1|]. split; [exact H2|].
  exact (excerpt_shape (lit "one two three four") 11 H1 H2).
Defined.

End ExcerptExtras.
